(** * solc-typed-ast: the contract definition node and the native compiler prefix

    A shallow embedding of
    - [src/ast/implementation/declaration/contract_definition.ts]
      (class [ContractDefinition]), and
    - [src/compile/kinds/native.ts] (function [getCompilerPrefixForOs]),
    with the properties the specification states about them. *)

From Stdlib Require Import ZArith Ascii String List Lia Permutation.
From stdpp Require Import base decidable countable gmap strings list fin_maps.

Local Open Scope string_scope.
Local Open Scope list_scope.
Local Open Scope Z_scope.

(** ** Results of operations that may throw *)

(** The failures of the specification's taxonomy, and the two JavaScript
    exceptions the getters can raise on their own. *)
Inductive Error : Type :=
| DuplicateId (id : Z)
| UnresolvedReference (id : Z)
| NotAChild
| CrossContextError (type : string) (id : Z)
| SyntaxError (literal : string)
| TypeError.

Inductive Result (A : Type) : Type :=
| Ok (a : A)
| Throw (e : Error).
Arguments Ok {A} a.
Arguments Throw {A} e.

Definition bindR {A B : Type} (r : Result A) (k : A -> Result B) : Result B :=
  match r with
  | Ok a => k a
  | Throw e => Throw e
  end.

(** [Array.prototype.map] with a callback that may throw: the elements are
    visited from left to right and the first exception aborts the call. *)
Fixpoint mapR {A B : Type} (f : A -> Result B) (l : list A) : Result (list B) :=
  match l with
  | [] => Ok []
  | x :: l' => bindR (f x) (fun y => bindR (mapR f l') (fun ys => Ok (y :: ys)))
  end.

(** ** native.ts *)

Module Native.

(** What [os.arch()] and [os.type()] answer on the running machine. *)
Record Os : Type := mkOs { arch : string; type : string }.

Definition getCompilerPrefixForOs (os : Os) : option string :=
  let arch := arch os in
  if bool_decide (arch ≠ "x64") && bool_decide (arch ≠ "ia64") then None
  else
    let type := type os in
    if bool_decide (type = "Linux") then Some "linux-amd64"
    else if bool_decide (type = "Windows_NT") then Some "windows-amd64"
    else if bool_decide (type = "Darwin") then Some "windows-amd64"
    else None.

End Native.

(** ** AST nodes *)

(** The classes an [instanceof] test of [ContractDefinition] tells apart;
    every other node class is [OtherNode]. *)
Inductive NodeClass : Type :=
| StructuredDocumentation
| InheritanceSpecifier
| VariableDeclaration
| ModifierDefinition
| EventDefinition
| ErrorDefinition
| FunctionDefinition
| UsingForDirective
| StructDefinition
| EnumDefinition
| SourceUnit
| ContractDefinitionClass
| OtherNode.

#[global] Instance NodeClass_eq_dec : EqDecision NodeClass.
Proof. solve_decision. Defined.

Definition NodeClass_to_nat (k : NodeClass) : nat :=
  match k with
  | StructuredDocumentation => 0 | InheritanceSpecifier => 1
  | VariableDeclaration => 2 | ModifierDefinition => 3
  | EventDefinition => 4 | ErrorDefinition => 5
  | FunctionDefinition => 6 | UsingForDirective => 7
  | StructDefinition => 8 | EnumDefinition => 9
  | SourceUnit => 10 | ContractDefinitionClass => 11
  | OtherNode => 12
  end%nat.

Definition NodeClass_of_nat (n : nat) : NodeClass :=
  match n with
  | 0 => StructuredDocumentation | 1 => InheritanceSpecifier
  | 2 => VariableDeclaration | 3 => ModifierDefinition
  | 4 => EventDefinition | 5 => ErrorDefinition
  | 6 => FunctionDefinition | 7 => UsingForDirective
  | 8 => StructDefinition | 9 => EnumDefinition
  | 10 => SourceUnit | 11 => ContractDefinitionClass
  | _ => OtherNode
  end%nat.

#[global] Instance NodeClass_countable : Countable NodeClass.
Proof.
  apply (inj_countable' NodeClass_to_nat NodeClass_of_nat).
  intros []; reflexivity.
Defined.

(** A node object.  None of the code below writes the fields kept here, so
    an object is represented by these fields together with a serial number
    [oid] that tells apart two objects whose fields agree; the JavaScript
    identity test [a === b] on objects is equality of these records.  The
    one field the code does write, [parent], lives in the state.

    [canonicalSignatureHash] and [isConstructor] are attributes of
    [FunctionDefinition] instances; they are read on no other node. *)
Record ASTNode : Type := mkNode {
  oid : positive;
  class : NodeClass;
  id : Z;
  type : string;
  canonicalSignatureHash : string;
  isConstructor : bool
}.

#[global] Instance ASTNode_eq_dec : EqDecision ASTNode.
Proof. solve_decision. Defined.

Definition ASTNode_to_tuple (n : ASTNode) :
    positive * NodeClass * Z * string * string * bool :=
  (oid n, class n, id n, type n, canonicalSignatureHash n, isConstructor n).

Definition ASTNode_of_tuple
    (t : positive * NodeClass * Z * string * string * bool) : ASTNode :=
  let '(o, k, i, ty, h, c) := t in mkNode o k i ty h c.

#[global] Instance ASTNode_countable : Countable ASTNode.
Proof.
  apply (inj_countable' ASTNode_to_tuple ASTNode_of_tuple).
  intros []; reflexivity.
Defined.

(** [node instanceof K]. *)
Definition instanceof (k : NodeClass) (node : ASTNode) : bool :=
  bool_decide (class node = k).

(** ** JavaScript strings and BigInt *)

Fixpoint string_forallb (p : ascii -> bool) (s : string) : bool :=
  match s with
  | EmptyString => true
  | String c s' => p c && string_forallb p s'
  end.

Definition hexDigitValue (c : ascii) : option Z :=
  let n := Z.of_N (N_of_ascii c) in
  if (48 <=? n) && (n <=? 57) then Some (n - 48)
  else if (97 <=? n) && (n <=? 102) then Some (n - 87)
  else if (65 <=? n) && (n <=? 70) then Some (n - 55)
  else None.

Definition isHexDigit (c : ascii) : bool :=
  match hexDigitValue c with Some _ => true | None => false end.

Definition isLowerHexDigit (c : ascii) : bool :=
  let n := Z.of_N (N_of_ascii c) in
  ((48 <=? n) && (n <=? 57)) || ((97 <=? n) && (n <=? 102)).

(** The value of a run of hexadecimal digits, most significant first. *)
Fixpoint parseHexDigits (acc : Z) (s : string) : option Z :=
  match s with
  | EmptyString => Some acc
  | String c s' =>
      match hexDigitValue c with
      | Some d => parseHexDigits (16 * acc + d) s'
      | None => None
      end
  end.

(** White space of the ASCII range (tab, line feed, vertical tab, form
    feed, carriage return, space); strings here are byte strings and the
    white space outside ASCII is not modelled. *)
Definition isWhiteSpace (c : ascii) : bool :=
  let n := Z.of_N (N_of_ascii c) in
  ((9 <=? n) && (n <=? 13)) || (n =? 32).

Fixpoint trimEnd (s : string) : string :=
  match s with
  | EmptyString => EmptyString
  | String c s' =>
      match trimEnd s' with
      | EmptyString => if isWhiteSpace c then EmptyString else String c EmptyString
      | t => String c t
      end
  end.

(** [BigInt("0x" + s)]: the literal is accepted when [s] is one or more
    hexadecimal digits, possibly followed by white space; anything else
    raises a [SyntaxError]. *)
Definition BigInt_0x (s : string) : Result Z :=
  match trimEnd s with
  | EmptyString => Throw (SyntaxError ("0x" +:+ s))
  | t =>
      match parseHexDigits 0 t with
      | Some v => Ok v
      | None => Throw (SyntaxError ("0x" +:+ s))
      end
  end.

Definition hexDigit (d : Z) : ascii :=
  if d <? 10 then ascii_of_N (Z.to_N (48 + d)) else ascii_of_N (Z.to_N (87 + d)).

(** The hexadecimal digits of a non-negative [n], without leading zeros;
    [fuel] bounds the number of digits. *)
Fixpoint toHexDigits (fuel : nat) (n : Z) : string :=
  match fuel with
  | O => EmptyString
  | S fuel' =>
      if n <? 16 then String (hexDigit n) EmptyString
      else toHexDigits fuel' (n / 16) +:+ String (hexDigit (n mod 16)) EmptyString
  end.

(** [n.toString(16)] on a BigInt. *)
Definition BigInt_toString16 (n : Z) : string :=
  if n <? 0 then String "-"%char (toHexDigits (S (Z.to_nat (Z.log2 (- n)))) (- n))
  else toHexDigits (S (Z.to_nat (Z.log2 n))) n.

Fixpoint repeatChar (n : nat) (c : ascii) : string :=
  match n with
  | O => EmptyString
  | S n' => String c (repeatChar n' c)
  end.

(** [s.padStart(maxLength, fill)] for a fill string of one character. *)
Definition padStart (maxLength : nat) (fill : ascii) (s : string) : string :=
  repeatChar (maxLength - String.length s) fill +:+ s.

(** [array.reduce(f)] without an initial value. *)
Definition reduce {A : Type} (f : A -> A -> A) (l : list A) : Result A :=
  match l with
  | [] => Throw TypeError
  | x :: l' => Ok (fold_left f l' x)
  end.

(** The reading of the specification: a 4-byte value written as [k]
    lowercase hexadecimal digits, zero-padded on the left. *)
Fixpoint fixedHex (k : nat) (n : Z) : string :=
  match k with
  | O => EmptyString
  | S k' => fixedHex k' (n / 16) +:+ String (hexDigit (n mod 16)) EmptyString
  end.

(** ** The registry *)

(** Modelled from the spec: the class [ASTContext] of [ast_node.ts], the
    registry that maps the ids of one program to its nodes, is not among
    the sources.  The specification gives it three operations: [register]
    adds a node under its id and fails with DuplicateId when the id is
    taken, [locate] returns the node of an id and fails with
    UnresolvedReference when there is none, and [contains] tells whether
    the id of a node is registered. *)
Record ASTContext : Type := mkContext { registered : gmap Z ASTNode }.

Definition register (node : ASTNode) (ctx : ASTContext) : Result ASTContext :=
  match registered ctx !! id node with
  | Some _ => Throw (DuplicateId (id node))
  | None => Ok (mkContext (<[id node := node]> (registered ctx)))
  end.

Definition locate (ctx : ASTContext) (i : Z) : Result ASTNode :=
  match registered ctx !! i with
  | Some node => Ok node
  | None => Throw (UnresolvedReference i)
  end.

Definition contains (ctx : ASTContext) (node : ASTNode) : bool :=
  bool_decide (is_Some (registered ctx !! id node)).

(** Every node sits under its own id: what [register] maintains. *)
Definition wf_context (ctx : ASTContext) : Prop :=
  ∀ (i : Z) (node : ASTNode), registered ctx !! i = Some node → id node = i.

(** ** The contract definition *)

(** Modelled from the spec: the enumeration [ContractKind] of
    [constants.ts] is not among the sources; the specification names its
    three kinds. *)
Inductive ContractKind : Type := Contract | Library | Interface.

#[global] Instance ContractKind_eq_dec : EqDecision ContractKind.
Proof. solve_decision. Defined.

(** A [ContractDefinition] object [self] with its own fields, its list of
    children, and the two pieces of the program around it that its methods
    read or write: the [parent] field of the nodes ([parent !! n = None]
    when [n.parent] is undefined) and the registry of the node.

    Modelled from the spec: the accessor [requiredContext] of [ASTNode] is
    not among the sources; it is the registry the node is registered in. *)
Record ContractDefinition : Type := mkContract {
  self : ASTNode;
  docString : option string;
  name : string;
  nameLocation : option string;
  scope : Z;
  kind : ContractKind;
  abstract : bool;
  fullyImplemented : bool;
  linearizedBaseContracts : list Z;
  usedErrors : list Z;
  ownChildren : list ASTNode;
  parent : gmap ASTNode ASTNode;
  requiredContext : ASTContext
}.

Definition with_docString (v : option string) (c : ContractDefinition) :=
  mkContract (self c) v (name c) (nameLocation c) (scope c) (kind c) (abstract c)
    (fullyImplemented c) (linearizedBaseContracts c) (usedErrors c)
    (ownChildren c) (parent c) (requiredContext c).

Definition with_nameLocation (v : option string) (c : ContractDefinition) :=
  mkContract (self c) (docString c) (name c) v (scope c) (kind c) (abstract c)
    (fullyImplemented c) (linearizedBaseContracts c) (usedErrors c)
    (ownChildren c) (parent c) (requiredContext c).

Definition with_scope (v : Z) (c : ContractDefinition) :=
  mkContract (self c) (docString c) (name c) (nameLocation c) v (kind c) (abstract c)
    (fullyImplemented c) (linearizedBaseContracts c) (usedErrors c)
    (ownChildren c) (parent c) (requiredContext c).

Definition with_children (l : list ASTNode) (p : gmap ASTNode ASTNode)
    (c : ContractDefinition) :=
  mkContract (self c) (docString c) (name c) (nameLocation c) (scope c) (kind c)
    (abstract c) (fullyImplemented c) (linearizedBaseContracts c) (usedErrors c)
    l p (requiredContext c).

(** Methods that write the object: the state after the call is returned
    also when the call throws. *)
Definition M (A : Type) : Type := ContractDefinition -> Result A * ContractDefinition.

#[global] Instance M_ret : MRet M := λ A a c, (Ok a, c).

#[global] Instance M_bind : MBind M := λ A B k m c,
  match m c with
  | (Ok a, c') => k a c'
  | (Throw e, c') => (Throw e, c')
  end.

Definition throw {A : Type} (e : Error) : M A := λ c, (Throw e, c).

Definition modify (f : ContractDefinition -> ContractDefinition) : M unit :=
  λ c, (Ok tt, f c).

(** *** The tree of owned children *)

(** [array.indexOf(x)]: the first index that holds [x], if any. *)
Fixpoint indexOf (x : ASTNode) (l : list ASTNode) : option nat :=
  match l with
  | [] => None
  | y :: l' => if bool_decide (y = x) then Some 0%nat else S <$> indexOf x l'
  end.

(** Modelled from the spec: the class [ASTNodeWithChildren] of
    [ast_node.ts] is not among the sources.  [appendChild] adds the node as
    last child and [insertAtBeginning] as first child, both setting its
    parent; [replaceChild] and [removeChild] fail with NotAChild unless the
    old node is a current child, the former swapping in place and updating
    the parent of both nodes, the latter clearing the parent of the node. *)
Definition appendChild (node : ASTNode) : M ASTNode := λ c,
  (Ok node, with_children (ownChildren c ++ [node]) (<[node := self c]> (parent c)) c).

Definition insertAtBeginning (node : ASTNode) : M ASTNode := λ c,
  (Ok node, with_children (node :: ownChildren c) (<[node := self c]> (parent c)) c).

Definition replaceChild (newNode oldNode : ASTNode) : M ASTNode := λ c,
  match indexOf oldNode (ownChildren c) with
  | None => (Throw NotAChild, c)
  | Some index =>
      (Ok oldNode,
       with_children (<[index := newNode]> (ownChildren c))
         (<[newNode := self c]> (delete oldNode (parent c))) c)
  end.

Definition removeChild (node : ASTNode) : M ASTNode := λ c,
  match indexOf node (ownChildren c) with
  | None => (Throw NotAChild, c)
  | Some index =>
      (Ok node, with_children (delete index (ownChildren c)) (delete node (parent c)) c)
  end.

(** *** documentation *)

(** [string | StructuredDocumentation | undefined].  The type of the
    accessor admits a node only of class [StructuredDocumentation]. *)
Inductive Documentation : Type :=
| DocUndefined
| DocString (s : string)
| DocNode (node : ASTNode).

#[global] Instance Documentation_eq_dec : EqDecision Documentation.
Proof. solve_decision. Defined.

Definition documentation (c : ContractDefinition) : Documentation :=
  match docString c with
  | Some s => DocString s
  | None =>
      match List.find (instanceof StructuredDocumentation) (ownChildren c) with
      | Some node => DocNode node
      | None => DocUndefined
      end
  end.

Definition isStructuredDocumentation (v : Documentation) : option ASTNode :=
  match v with
  | DocNode node => if instanceof StructuredDocumentation node then Some node else None
  | _ => None
  end.

(** What [this.docString = value] stores when [value] is no node: the
    string, or undefined. *)
Definition asDocString (v : Documentation) : option string :=
  match v with
  | DocString s => Some s
  | _ => None
  end.

Definition set_documentation (value : Documentation) : M unit := λ c,
  let old := documentation c in
  match isStructuredDocumentation value with
  | Some value' =>
      (modify (with_docString None) ;;
       match isStructuredDocumentation old with
       | Some old' =>
           if bool_decide (value' ≠ old')
           then replaceChild value' old' ;; mret tt
           else mret tt
       | None => insertAtBeginning value' ;; mret tt
       end) c
  | None =>
      (match isStructuredDocumentation old with
       | Some old' => removeChild old' ;; mret tt
       | None => mret tt
       end ;;
       modify (with_docString (asDocString value))) c
  end.

(** *** The constructor *)

Fixpoint appendChildren (children : list ASTNode) : M unit :=
  match children with
  | [] => mret tt
  | node :: rest => appendChild node ;; appendChildren rest
  end.

(** [new ContractDefinition(...)]: [node] stands for the object made by
    [super(id, src, type, raw)]; [parents] and [ctx] are the parent links
    and the registry of the program the object is made in. *)
Definition new_ContractDefinition (node : ASTNode) (name : string) (scope : Z)
    (kind : ContractKind) (abstract fullyImplemented : bool)
    (linearizedBaseContracts usedErrors : list Z)
    (documentation : Documentation) (children : list ASTNode)
    (nameLocation : option string)
    (parents : gmap ASTNode ASTNode) (ctx : ASTContext)
    : Result unit * ContractDefinition :=
  (appendChildren children ;;
   set_documentation documentation ;;
   modify (with_nameLocation nameLocation))
    (mkContract node None name None scope kind abstract fullyImplemented
       linearizedBaseContracts usedErrors [] parents ctx).

(** *** vScope *)

Definition vScope (c : ContractDefinition) : Result ASTNode :=
  locate (requiredContext c) (scope c).

Definition set_vScope (value : ASTNode) : M unit := λ c,
  if negb (contains (requiredContext c) value)
  then throw (CrossContextError (type value) (id value)) c
  else modify (with_scope (id value)) c.

(** *** Views *)

Definition vLinearizedBaseContracts (c : ContractDefinition) : Result (list ASTNode) :=
  let context := requiredContext c in
  mapR (λ i, locate context i) (linearizedBaseContracts c).

Definition vUsedErrors (c : ContractDefinition) : Result (list ASTNode) :=
  let context := requiredContext c in
  mapR (λ i, locate context i) (usedErrors c).

Definition vInheritanceSpecifiers (c : ContractDefinition) : list ASTNode :=
  List.filter (λ node, instanceof InheritanceSpecifier node) (ownChildren c).

Definition vStateVariables (c : ContractDefinition) : list ASTNode :=
  List.filter (λ node, instanceof VariableDeclaration node) (ownChildren c).

Definition vModifiers (c : ContractDefinition) : list ASTNode :=
  List.filter (λ node, instanceof ModifierDefinition node) (ownChildren c).

Definition vEvents (c : ContractDefinition) : list ASTNode :=
  List.filter (λ node, instanceof EventDefinition node) (ownChildren c).

Definition vErrors (c : ContractDefinition) : list ASTNode :=
  List.filter (λ node, instanceof ErrorDefinition node) (ownChildren c).

Definition vFunctions (c : ContractDefinition) : list ASTNode :=
  List.filter (λ node, instanceof FunctionDefinition node) (ownChildren c).

Definition vUsingForDirectives (c : ContractDefinition) : list ASTNode :=
  List.filter (λ node, instanceof UsingForDirective node) (ownChildren c).

Definition vStructs (c : ContractDefinition) : list ASTNode :=
  List.filter (λ node, instanceof StructDefinition node) (ownChildren c).

Definition vEnums (c : ContractDefinition) : list ASTNode :=
  List.filter (λ node, instanceof EnumDefinition node) (ownChildren c).

Definition vConstructor (c : ContractDefinition) : option ASTNode :=
  List.find (λ fn, isConstructor fn) (vFunctions c).

(** *** interfaceId and isSubclassOf *)

Definition interfaceId (c : ContractDefinition) : Result (option string) :=
  if bool_decide (kind c ≠ Interface) then Ok None
  else if bool_decide (length (vFunctions c) = 0%nat) then Ok (Some "00000000")
  else
    bindR (mapR (λ fn, BigInt_0x (canonicalSignatureHash fn)) (vFunctions c)) (λ hashes,
    bindR (reduce (λ a b, Z.lxor a b) hashes) (λ x,
    Ok (Some (padStart 8 "0"%char (BigInt_toString16 x))))).

Definition isSubclassOf (c : ContractDefinition) (other : ASTNode) : Result bool :=
  bindR (vLinearizedBaseContracts c) (λ bases, Ok (bool_decide (other ∈ bases))).

(** ** Vocabulary of the specification *)

(** A 4-byte selector hash: eight hexadecimal digits. *)
Definition isSelectorHash (h : string) : bool :=
  (String.length h =? 8)%nat && string_forallb isHexDigit h.

(** A hash interpreted as a hexadecimal integer. *)
Definition hexValue (h : string) : Z :=
  match parseHexDigits 0 h with
  | Some v => v
  | None => 0
  end.

(** The number [BigInt("0x" + h)] evaluates to, when it does not throw. *)
Definition hashValue (h : string) : Z :=
  match BigInt_0x h with
  | Ok v => v
  | Throw _ => 0
  end.

(** The bitwise XOR folded over a list, in order. *)
Definition xorFold (l : list Z) : Z := fold_left Z.lxor l 0.

(** No node of the list is a [StructuredDocumentation]. *)
Definition noStructuredDocumentation (l : list ASTNode) : Prop :=
  Forall (fun node => instanceof StructuredDocumentation node = false) l.

Definition structuredCount (c : ContractDefinition) : nat :=
  length (List.filter (instanceof StructuredDocumentation) (ownChildren c)).

(** The documentation has one representation: no structured child next to
    a stored text, and at most one structured child otherwise. *)
Definition docConsistent (c : ContractDefinition) : Prop :=
  match docString c with
  | Some _ => structuredCount c = 0%nat
  | None => (structuredCount c <= 1)%nat
  end.

(** The state after [c.documentation = value]. *)
Definition assignDocumentation (value : Documentation) (c : ContractDefinition)
    : ContractDefinition :=
  snd (set_documentation value c).

(** "string to string is a no-op": nothing observable changes. *)
Definition stringAssignmentIsNoop (c : ContractDefinition) (s : string) : Prop :=
  let c' := assignDocumentation (DocString s) c in
  c' = c /\ documentation c' = documentation c /\ ownChildren c' = ownChildren c.

(** "after [documentation = D] the getter returns [D] and
    [D == ownChildren[0]]". *)
Definition nodeAssignedFirst (c : ContractDefinition) (D : ASTNode) : Prop :=
  let c' := assignDocumentation (DocNode D) c in
  documentation c' = DocNode D /\ ownChildren c' !! 0%nat = Some D.

(** "after [documentation = s] the getter returns [s] and no structured
    documentation child exists". *)
Definition textExcludesNode (c : ContractDefinition) (s : string) : Prop :=
  let c' := assignDocumentation (DocString s) c in
  documentation c' = DocString s /\ noStructuredDocumentation (ownChildren c').

(** "after [documentation = undefined] the getter returns undefined". *)
Definition undefinedClears (c : ContractDefinition) : Prop :=
  documentation (assignDocumentation DocUndefined c) = DocUndefined.

(** The nine filtered views. *)
Inductive View : Type :=
| InheritanceSpecifiers | StateVariables | Modifiers | Events | Errors
| Functions | UsingForDirectives | Structs | Enums.

Definition viewClass (v : View) : NodeClass :=
  match v with
  | InheritanceSpecifiers => InheritanceSpecifier
  | StateVariables => VariableDeclaration
  | Modifiers => ModifierDefinition
  | Events => EventDefinition
  | Errors => ErrorDefinition
  | Functions => FunctionDefinition
  | UsingForDirectives => UsingForDirective
  | Structs => StructDefinition
  | Enums => EnumDefinition
  end.

Definition getView (v : View) (c : ContractDefinition) : list ASTNode :=
  match v with
  | InheritanceSpecifiers => vInheritanceSpecifiers c
  | StateVariables => vStateVariables c
  | Modifiers => vModifiers c
  | Events => vEvents c
  | Errors => vErrors c
  | Functions => vFunctions c
  | UsingForDirectives => vUsingForDirectives c
  | Structs => vStructs c
  | Enums => vEnums c
  end.

(** The nodes of class [k] in a list, in the order of the list. *)
Fixpoint subsequenceOfKind (k : NodeClass) (l : list ASTNode) : list ASTNode :=
  match l with
  | [] => []
  | node :: l' =>
      if decide (class node = k) then node :: subsequenceOfKind k l'
      else subsequenceOfKind k l'
  end.

(** ** Vocabulary for the constructor and the getters *)

(** The list without the first of its elements that satisfies [p]. *)
Fixpoint removeFirst (p : ASTNode -> bool) (l : list ASTNode) : list ASTNode :=
  match l with
  | [] => []
  | x :: l' => if p x then l' else x :: removeFirst p l'
  end.

(** The list with [y] in the place of the first element that satisfies [p]. *)
Fixpoint replaceFirst (p : ASTNode -> bool) (y : ASTNode) (l : list ASTNode)
    : list ASTNode :=
  match l with
  | [] => []
  | x :: l' => if p x then y :: l' else x :: replaceFirst p y l'
  end.

(** The children a contract is left with when it is built from [children]
    and the documentation [doc]. *)
Definition constructedChildren (doc : Documentation) (children : list ASTNode)
    : list ASTNode :=
  match isStructuredDocumentation doc with
  | Some D =>
      if existsb (instanceof StructuredDocumentation) children
      then replaceFirst (instanceof StructuredDocumentation) D children
      else D :: children
  | None => removeFirst (instanceof StructuredDocumentation) children
  end.

(** A value of the type [string | StructuredDocumentation | undefined]. *)
Definition wellTyped (v : Documentation) : Prop :=
  match v with
  | DocNode node => class node = StructuredDocumentation
  | _ => True
  end.

(** The number an [interfaceId] spells, when there is one. *)
Definition interfaceIdValue (c : ContractDefinition) : option Z :=
  match interfaceId c with
  | Ok (Some s) => parseHexDigits 0 s
  | _ => None
  end.

(** [BigInt] accepts the hash of every function in the list. *)
Definition hashesAccepted (l : list ASTNode) : Prop :=
  Forall (fun fn => exists v, BigInt_0x (canonicalSignatureHash fn) = Ok v) l.

(** The children that belong to none of the nine views. *)
Definition unviewed (c : ContractDefinition) : list ASTNode :=
  List.filter
    (fun node => forallb (fun k => negb (instanceof k node))
                   [InheritanceSpecifier; VariableDeclaration; ModifierDefinition;
                    EventDefinition; ErrorDefinition; FunctionDefinition;
                    UsingForDirective; StructDefinition; EnumDefinition])
    (ownChildren c).

Definition allViews : list View :=
  [InheritanceSpecifiers; StateVariables; Modifiers; Events; Errors;
   Functions; UsingForDirectives; Structs; Enums].

(** The state after an assignment, in each of the rows of the setter: the
    stored text [t], the children [l] and the parent links [p]. *)
Inductive AssignmentRow (v : Documentation) (c c' : ContractDefinition) : Prop :=
| RowInsert (D : ASTNode) :
    v = DocNode D -> instanceof StructuredDocumentation D = true ->
    isStructuredDocumentation (documentation c) = None ->
    c' = with_children (D :: ownChildren c) (<[D := self c]> (parent c))
           (with_docString None c) ->
    AssignmentRow v c c'
| RowSame (D : ASTNode) :
    v = DocNode D -> documentation c = DocNode D -> c' = c ->
    AssignmentRow v c c'
| RowReplace (D o : ASTNode) (l1 l2 : list ASTNode) :
    v = DocNode D -> instanceof StructuredDocumentation D = true -> documentation c = DocNode o -> D ≠ o ->
    ownChildren c = l1 ++ o :: l2 -> noStructuredDocumentation l1 ->
    c' = with_children (l1 ++ D :: l2) (<[D := self c]> (delete o (parent c)))
           (with_docString None c) ->
    AssignmentRow v c c'
| RowRemove (o : ASTNode) (l1 l2 : list ASTNode) :
    isStructuredDocumentation v = None -> documentation c = DocNode o ->
    ownChildren c = l1 ++ o :: l2 -> noStructuredDocumentation l1 ->
    c' = with_docString (asDocString v)
           (with_children (l1 ++ l2) (delete o (parent c)) c) ->
    AssignmentRow v c c'
| RowStore :
    isStructuredDocumentation v = None ->
    isStructuredDocumentation (documentation c) = None ->
    c' = with_docString (asDocString v) c ->
    AssignmentRow v c c'.

(** ** native.ts: the compiler process *)

(** [NativeCompiler.compile] reacts to the events of the child process: the
    chunks of its two output streams, then its end with an exit code
    ([None] when the process was ended by a signal and the code is null).
    The chunks are buffers, turned into text by [stdout += data]; that
    conversion and [JSON.parse] are taken as given. *)
Section Compile.

Variable Buffer : Type.
Variable Buffer_toString : Buffer -> string.
Variable Json : Type.
Variable ParseError : Type.
Variable JSON_parse : string -> Json + ParseError.

Inductive ChildEvent : Type :=
| StdoutData (data : Buffer)
| StderrData (data : Buffer).

(** The local variables [stdout] and [stderr] of the promise. *)
Record Collected : Type := mkCollected { stdout : string; stderr : string }.

Definition onData (st : Collected) (ev : ChildEvent) : Collected :=
  match ev with
  | StdoutData data => mkCollected (stdout st +:+ Buffer_toString data) (stderr st)
  | StderrData data => mkCollected (stdout st) (stderr st +:+ Buffer_toString data)
  end.

(** How the promise settles.  The two rejections with a message keep the
    parts the message is made of. *)
Inductive Settled : Type :=
| Resolved (outJson : Json)
| RejectedExitCode (code : option Z) (stderr : string)
| RejectedStderr (stderr : string)
| RejectedParse (e : ParseError).

Definition onClose (code : option Z) (st : Collected) : Settled :=
  if bool_decide (code ≠ Some 0) then RejectedExitCode code (stderr st)
  else if bool_decide (stderr st ≠ "") then RejectedStderr (stderr st)
  else
    match JSON_parse (stdout st) with
    | inl outJson => Resolved outJson
    | inr e => RejectedParse e
    end.

Definition compile (events : list ChildEvent) (code : option Z) : Settled :=
  onClose code (fold_left onData events (mkCollected "" "")).

(** The text of one stream: its chunks, in order of arrival. *)
Fixpoint stdoutText (events : list ChildEvent) : string :=
  match events with
  | [] => ""
  | StdoutData data :: rest => Buffer_toString data +:+ stdoutText rest
  | StderrData _ :: rest => stdoutText rest
  end.

Fixpoint stderrText (events : list ChildEvent) : string :=
  match events with
  | [] => ""
  | StderrData data :: rest => Buffer_toString data +:+ stderrText rest
  | StdoutData _ :: rest => stderrText rest
  end.

End Compile.

Arguments StdoutData {Buffer} data.
Arguments StderrData {Buffer} data.
Arguments Resolved {Json ParseError} outJson.
Arguments RejectedExitCode {Json ParseError} code stderr.
Arguments RejectedStderr {Json ParseError} stderr.
Arguments RejectedParse {Json ParseError} e.

(** ** Example objects *)

Definition exampleNode (k : NodeClass) (o : positive) : ASTNode :=
  mkNode o k (Z.pos o) "" "" false.

Definition exampleFunction (o : positive) (hash : string) : ASTNode :=
  mkNode o FunctionDefinition (Z.pos o) "FunctionDefinition" hash false.

Definition exampleDoc (o : positive) : ASTNode :=
  mkNode o StructuredDocumentation (Z.pos o) "StructuredDocumentation" "" false.

Definition exampleContract (k : ContractKind) (doc : Documentation)
    (children : list ASTNode) : ContractDefinition :=
  snd (new_ContractDefinition (exampleNode ContractDefinitionClass 1) "C" 0 k
         false true [1] [] doc children None ∅ (mkContext ∅)).

(** * Properties *)

(** ** Strings *)

Section Strings.

Lemma string_app_nil (t : string) : EmptyString +:+ t = t.
Proof. reflexivity. Qed.

Lemma string_app_cons (c : ascii) (s t : string) :
  String c s +:+ t = String c (s +:+ t).
Proof. reflexivity. Qed.

Lemma string_app_assoc (s t u : string) : (s +:+ t) +:+ u = s +:+ (t +:+ u).
Proof.
  induction s as [|c s IH]; [reflexivity |].
  rewrite !string_app_cons. now rewrite IH.
Qed.

Lemma string_length_app (s t : string) :
  String.length (s +:+ t) = (String.length s + String.length t)%nat.
Proof.
  induction s as [|c s IH]; [reflexivity |].
  rewrite string_app_cons. simpl. now rewrite IH.
Qed.

Lemma string_forallb_app (p : ascii -> bool) (s t : string) :
  string_forallb p (s +:+ t) = string_forallb p s && string_forallb p t.
Proof.
  induction s as [|c s IH]; [reflexivity |].
  rewrite string_app_cons. simpl. rewrite IH. now rewrite andb_assoc.
Qed.

Lemma repeatChar_snoc (n : nat) (c : ascii) :
  repeatChar n c +:+ String c EmptyString = String c (repeatChar n c).
Proof.
  induction n as [|n IH]; [reflexivity |].
  simpl repeatChar. rewrite string_app_cons. now rewrite IH.
Qed.

Lemma string_length_repeatChar (n : nat) (c : ascii) :
  String.length (repeatChar n c) = n.
Proof. induction n as [|n IH]; simpl; [reflexivity | now rewrite IH]. Qed.

Lemma padStart_snoc (k : nat) (c d : ascii) (s : string) :
  padStart (S k) c (s +:+ String d EmptyString)
  = padStart k c s +:+ String d EmptyString.
Proof.
  unfold padStart. rewrite string_length_app. simpl String.length.
  replace (S k - (String.length s + 1))%nat with (k - String.length s)%nat by lia.
  now rewrite string_app_assoc.
Qed.

End Strings.

(** ** Hexadecimal digits *)

Section Hex.

Lemma hexDigit_value (d : Z) : 0 <= d < 16 -> hexDigitValue (hexDigit d) = Some d.
Proof.
  intros Hd.
  assert (Hcases : d = 0 \/ d = 1 \/ d = 2 \/ d = 3 \/ d = 4 \/ d = 5 \/ d = 6 \/ d = 7
                   \/ d = 8 \/ d = 9 \/ d = 10 \/ d = 11 \/ d = 12 \/ d = 13
                   \/ d = 14 \/ d = 15) by lia.
  repeat (destruct Hcases as [-> | Hcases]; [reflexivity |]).
  subst d; reflexivity.
Qed.

Lemma hexDigit_lower (d : Z) : 0 <= d < 16 -> isLowerHexDigit (hexDigit d) = true.
Proof.
  intros Hd.
  assert (Hcases : d = 0 \/ d = 1 \/ d = 2 \/ d = 3 \/ d = 4 \/ d = 5 \/ d = 6 \/ d = 7
                   \/ d = 8 \/ d = 9 \/ d = 10 \/ d = 11 \/ d = 12 \/ d = 13
                   \/ d = 14 \/ d = 15) by lia.
  repeat (destruct Hcases as [-> | Hcases]; [reflexivity |]).
  subst d; reflexivity.
Qed.

Lemma hexDigitValue_range (c : ascii) (d : Z) :
  hexDigitValue c = Some d -> 0 <= d < 16.
Proof.
  unfold hexDigitValue. intros H.
  repeat match type of H with
         | (if ?b then _ else _) = _ => destruct b eqn:?
         end; inversion H; subst; lia.
Qed.

Lemma hexDigit_not_space (c : ascii) : isHexDigit c = true -> isWhiteSpace c = false.
Proof.
  unfold isHexDigit, hexDigitValue, isWhiteSpace.
  set (n := Z.of_N (N_of_ascii c)). intros H.
  destruct (Z.leb_spec 9 n), (Z.leb_spec n 13), (Z.eqb_spec n 32);
    simpl; try reflexivity; exfalso;
    destruct (Z.leb_spec 48 n), (Z.leb_spec n 57), (Z.leb_spec 97 n),
      (Z.leb_spec n 102), (Z.leb_spec 65 n), (Z.leb_spec n 70);
    simpl in H; try discriminate; lia.
Qed.

Lemma parseHexDigits_app (acc : Z) (s t : string) :
  parseHexDigits acc (s +:+ t)
  = match parseHexDigits acc s with
    | Some v => parseHexDigits v t
    | None => None
    end.
Proof.
  revert acc; induction s as [|c s IH]; intros acc; [reflexivity |].
  rewrite string_app_cons. simpl.
  destruct (hexDigitValue c); [apply IH | reflexivity].
Qed.

(** A run of hexadecimal digits always has a value, below [16 ^ length]. *)
Lemma parseHexDigits_digits (s : string) (acc : Z) :
  string_forallb isHexDigit s = true -> 0 <= acc ->
  exists v, parseHexDigits acc s = Some v
            /\ acc * 16 ^ Z.of_nat (String.length s) <= v
               < (acc + 1) * 16 ^ Z.of_nat (String.length s).
Proof.
  revert acc; induction s as [|c s IH]; intros acc Hall Hacc.
  - exists acc. simpl. split; [reflexivity | lia].
  - simpl in Hall. apply andb_true_iff in Hall as [Hc Hs].
    unfold isHexDigit in Hc. simpl parseHexDigits.
    destruct (hexDigitValue c) as [d|] eqn:Hd; [| discriminate].
    apply hexDigitValue_range in Hd.
    destruct (IH (16 * acc + d) Hs ltac:(lia)) as (v & Hv & Hlo & Hhi).
    exists v. split; [exact Hv |].
    change (String.length (String c s)) with (S (String.length s)).
    rewrite Nat2Z.inj_succ, Z.pow_succ_r by lia.
    assert (Hp : 0 < 16 ^ Z.of_nat (String.length s)) by (apply Z.pow_pos_nonneg; lia).
    nia.
Qed.

Lemma trimEnd_digits (s : string) :
  string_forallb isHexDigit s = true -> trimEnd s = s.
Proof.
  induction s as [|c s IH]; intros Hall; [reflexivity |].
  simpl in Hall. apply andb_true_iff in Hall as [Hc Hs].
  simpl. rewrite (IH Hs).
  destruct s; [| reflexivity].
  now rewrite (hexDigit_not_space c Hc).
Qed.

Lemma fixedHex_zero (k : nat) : fixedHex k 0 = repeatChar k "0"%char.
Proof.
  induction k as [|k IH]; [reflexivity |].
  simpl fixedHex. change (0 / 16) with 0. rewrite IH.
  change (hexDigit (0 mod 16)) with "0"%char.
  apply repeatChar_snoc.
Qed.

Lemma fixedHex_length (k : nat) (n : Z) : String.length (fixedHex k n) = k.
Proof.
  revert n; induction k as [|k IH]; intros n; [reflexivity |].
  simpl fixedHex. rewrite string_length_app, IH. simpl. lia.
Qed.

Lemma fixedHex_lower (k : nat) (n : Z) :
  string_forallb isLowerHexDigit (fixedHex k n) = true.
Proof.
  revert n; induction k as [|k IH]; intros n; [reflexivity |].
  simpl fixedHex. rewrite string_forallb_app, IH. simpl.
  rewrite hexDigit_lower; [reflexivity |].
  apply Z.mod_pos_bound; lia.
Qed.

Lemma fixedHex_value (k : nat) (n : Z) :
  parseHexDigits 0 (fixedHex k n) = Some (n mod 16 ^ Z.of_nat k).
Proof.
  revert n; induction k as [|k IH]; intros n.
  - simpl. now rewrite Z.mod_1_r.
  - simpl fixedHex. rewrite parseHexDigits_app, IH. simpl parseHexDigits.
    rewrite hexDigit_value by (apply Z.mod_pos_bound; lia).
    f_equal.
    rewrite Nat2Z.inj_succ, Z.pow_succ_r by lia.
    rewrite (Z.rem_mul_r n 16 (16 ^ Z.of_nat k)); [lia | lia |].
    apply Z.pow_pos_nonneg; lia.
Qed.

(** With enough fuel the digits of [n], padded, are its fixed-width form. *)
Lemma toHexDigits_padStart (k fuel : nat) (n : Z) :
  0 <= n < 16 ^ Z.of_nat (S k) -> n < 16 ^ Z.of_nat fuel -> (0 < fuel)%nat ->
  padStart (S k) "0"%char (toHexDigits fuel n) = fixedHex (S k) n.
Proof.
  revert fuel n; induction k as [|k IH]; intros fuel n Hn Hfuel Hpos.
  - destruct fuel as [|fuel]; [lia |].
    change (16 ^ Z.of_nat 1) with 16 in Hn.
    simpl toHexDigits. destruct (Z.ltb_spec n 16) as [_|?]; [| lia].
    simpl fixedHex. rewrite Z.mod_small by lia. reflexivity.
  - destruct fuel as [|fuel]; [lia |].
    simpl toHexDigits. destruct (Z.ltb_spec n 16) as [Hlt|Hge].
    + change (fixedHex (S (S k)) n)
        with (fixedHex (S k) (n / 16) +:+ String (hexDigit (n mod 16)) EmptyString).
      rewrite Z.div_small, Z.mod_small, fixedHex_zero by lia.
      reflexivity.
    + change (fixedHex (S (S k)) n)
        with (fixedHex (S k) (n / 16) +:+ String (hexDigit (n mod 16)) EmptyString).
      rewrite padStart_snoc. f_equal.
      rewrite Nat2Z.inj_succ, Z.pow_succ_r in Hn, Hfuel by lia.
      apply IH.
      * split; [apply Z.div_pos; lia | apply Z.div_lt_upper_bound; lia].
      * apply Z.div_lt_upper_bound; lia.
      * destruct fuel as [|fuel']; [| lia].
        change (16 ^ Z.of_nat 0) with 1 in Hfuel. lia.
Qed.

Lemma toString16_fuel (n : Z) :
  0 <= n -> n < 16 ^ Z.of_nat (S (Z.to_nat (Z.log2 n))).
Proof.
  intros Hn.
  rewrite Nat2Z.inj_succ, Z2Nat.id by apply Z.log2_nonneg.
  destruct (Z.eq_dec n 0) as [-> | Hne]; [reflexivity |].
  pose proof (Z.log2_spec n ltac:(lia)) as [_ Hlt].
  eapply Z.lt_le_trans; [exact Hlt |].
  pose proof (Z.log2_nonneg n) as Hl.
  set (m := Z.succ (Z.log2 n)) in *.
  replace 16 with (2 ^ 4) by reflexivity.
  rewrite <- Z.pow_mul_r by lia.
  apply Z.pow_le_mono_r; lia.
Qed.

Lemma toString16_padStart (n : Z) :
  0 <= n < 2 ^ 32 ->
  padStart 8 "0"%char (BigInt_toString16 n) = fixedHex 8 n.
Proof.
  intros Hn. unfold BigInt_toString16.
  destruct (Z.ltb_spec n 0) as [? | _]; [lia |].
  apply toHexDigits_padStart.
  - change (16 ^ Z.of_nat 8) with (2 ^ 32). exact Hn.
  - apply toString16_fuel; lia.
  - lia.
Qed.

(** The digits of [toString(16)] always spell the number: the fuel never
    runs out. *)
Lemma toHexDigits_value (fuel : nat) (n : Z) :
  0 <= n < 16 ^ Z.of_nat fuel ->
  parseHexDigits 0 (toHexDigits fuel n) = Some n.
Proof.
  revert n; induction fuel as [|fuel IH]; intros n Hn.
  { change (16 ^ Z.of_nat 0) with 1 in Hn. now replace n with 0 by lia. }
  simpl toHexDigits. destruct (Z.ltb_spec n 16) as [Hlt|Hge].
  - simpl. rewrite hexDigit_value by lia. reflexivity.
  - rewrite Nat2Z.inj_succ, Z.pow_succ_r in Hn by lia.
    rewrite parseHexDigits_app, IH.
    + simpl. rewrite hexDigit_value by (apply Z.mod_pos_bound; lia).
      f_equal. pose proof (Z.div_mod n 16 ltac:(lia)). lia.
    + split; [apply Z.div_pos; lia | apply Z.div_lt_upper_bound; lia].
Qed.

Lemma BigInt_toString16_value (n : Z) :
  0 <= n -> parseHexDigits 0 (BigInt_toString16 n) = Some n.
Proof.
  intros Hn. unfold BigInt_toString16.
  destruct (Z.ltb_spec n 0) as [? | _]; [lia |].
  apply toHexDigits_value. split; [exact Hn | now apply toString16_fuel].
Qed.

Lemma lxor_range (a b : Z) :
  0 <= a < 2 ^ 32 -> 0 <= b < 2 ^ 32 -> 0 <= Z.lxor a b < 2 ^ 32.
Proof.
  intros Ha Hb.
  assert (Hnn : 0 <= Z.lxor a b) by (apply Z.lxor_nonneg; lia).
  split; [exact Hnn |].
  destruct (Z.eq_dec (Z.lxor a b) 0) as [-> | Hne]; [reflexivity |].
  apply Z.log2_lt_pow2; [lia |].
  pose proof (Z.log2_lxor a b ltac:(lia) ltac:(lia)) as Hmax.
  assert (Hla : Z.log2 a < 32).
  { destruct (Z.eq_dec a 0) as [-> | ?]; [reflexivity | apply Z.log2_lt_pow2; lia]. }
  assert (Hlb : Z.log2 b < 32).
  { destruct (Z.eq_dec b 0) as [-> | ?]; [reflexivity | apply Z.log2_lt_pow2; lia]. }
  lia.
Qed.

Lemma fold_lxor_range (l : list Z) (a : Z) :
  0 <= a < 2 ^ 32 -> Forall (fun x => 0 <= x < 2 ^ 32) l ->
  0 <= fold_left Z.lxor l a < 2 ^ 32.
Proof.
  intros Ha Hl; revert a Ha.
  induction Hl as [|x l Hx _ IH]; intros a Ha; [exact Ha |].
  simpl. apply IH. now apply lxor_range.
Qed.

Lemma fold_lxor_init (l : list Z) (a : Z) :
  fold_left Z.lxor l a = Z.lxor a (fold_left Z.lxor l 0).
Proof.
  revert a; induction l as [|x l IH]; intros a; simpl.
  - now rewrite Z.lxor_0_r.
  - rewrite (IH (Z.lxor a x)), (IH (Z.lxor 0 x)), Z.lxor_0_l.
    apply Z.lxor_assoc.
Qed.

Lemma fold_lxor_permutation (l1 l2 : list Z) :
  Permutation l1 l2 -> fold_left Z.lxor l1 0 = fold_left Z.lxor l2 0.
Proof.
  induction 1 as [| x l1 l2 _ IH | x y l | l1 l2 l3 _ IH1 _ IH2]; simpl.
  - reflexivity.
  - rewrite (fold_lxor_init l1), (fold_lxor_init l2). now rewrite IH.
  - rewrite !Z.lxor_0_l. f_equal. apply Z.lxor_comm.
  - now rewrite IH1.
Qed.

End Hex.

(** ** interfaceId *)

Section InterfaceId.

Lemma mapR_ok {A B : Type} (f : A -> Result B) (g : A -> B) (l : list A) :
  Forall (fun x => f x = Ok (g x)) l -> mapR f l = Ok (List.map g l).
Proof.
  induction 1 as [|x l Hx _ IH]; [reflexivity |].
  simpl. rewrite Hx. simpl. rewrite IH. reflexivity.
Qed.

Lemma reduce_lxor (l : list Z) : l <> [] -> reduce Z.lxor l = Ok (xorFold l).
Proof.
  destruct l as [|x l]; [congruence |]. intros _.
  unfold reduce, xorFold. simpl. now rewrite Z.lxor_0_l.
Qed.

Lemma BigInt_0x_accepted (h : string) (v : Z) :
  BigInt_0x h = Ok v -> BigInt_0x h = Ok (hashValue h).
Proof. unfold hashValue. now intros ->. Qed.

(** A selector hash is a literal that [BigInt] accepts, with a value of
    four bytes. *)
Lemma BigInt_0x_selector (h : string) :
  isSelectorHash h = true ->
  BigInt_0x h = Ok (hexValue h) /\ 0 <= hexValue h < 2 ^ 32.
Proof.
  unfold isSelectorHash. intros H.
  apply andb_true_iff in H as [Hlen Hall].
  apply Nat.eqb_eq in Hlen.
  destruct (parseHexDigits_digits h 0 Hall ltac:(lia)) as (v & Hv & Hlo & Hhi).
  rewrite Hlen in Hlo, Hhi. change (16 ^ Z.of_nat 8) with (2 ^ 32) in Hlo, Hhi.
  unfold BigInt_0x, hexValue. rewrite (trimEnd_digits h Hall).
  destruct h; [discriminate |]. rewrite Hv. split; [reflexivity | lia].
Qed.

(** On an interface with functions whose hashes [BigInt] accepts, the
    getter returns the padded hexadecimal form of the XOR of the hashes. *)
Lemma interfaceId_fold (c : ContractDefinition) :
  kind c = Interface -> vFunctions c <> [] ->
  Forall (fun fn => exists v, BigInt_0x (canonicalSignatureHash fn) = Ok v)
    (vFunctions c) ->
  interfaceId c
  = Ok (Some (padStart 8 "0"%char
                (BigInt_toString16
                   (xorFold (List.map (fun fn => hashValue (canonicalSignatureHash fn))
                               (vFunctions c)))))).
Proof.
  intros Hk Hne Hall. unfold interfaceId.
  rewrite bool_decide_eq_false_2 by (intros Hn; apply Hn, Hk).
  rewrite bool_decide_eq_false_2
    by (intros Hl; apply Hne; now apply length_zero_iff_nil).
  rewrite (mapR_ok _ (fun fn => hashValue (canonicalSignatureHash fn))).
  - simpl. rewrite reduce_lxor; [reflexivity |].
    intros Hmap. apply Hne. now apply map_eq_nil in Hmap.
  - eapply List.Forall_impl; [| exact Hall].
    intros fn [v Hv]. simpl. now apply BigInt_0x_accepted with v.
Qed.

Lemma interfaceId_no_functions (c : ContractDefinition) :
  kind c = Interface -> vFunctions c = [] -> interfaceId c = Ok (Some "00000000").
Proof.
  intros Hk Hnil. unfold interfaceId.
  rewrite bool_decide_eq_false_2 by (intros Hn; apply Hn, Hk).
  rewrite Hnil. reflexivity.
Qed.

End InterfaceId.

(** C1: [interfaceId] is undefined unless the kind is interface; on an
    interface without functions it is the string "00000000"; on an interface
    with functions whose selector hashes are 4-byte hexadecimal strings it
    is the XOR, folded over [vFunctions] in order, of the hashes read as
    hexadecimal integers, written as eight lowercase hexadecimal digits
    padded with zeros. *)
Theorem interfaceId_spec (c : ContractDefinition) :
  (kind c ≠ Interface -> interfaceId c = Ok None) /\
  (kind c = Interface -> vFunctions c = [] -> interfaceId c = Ok (Some "00000000")) /\
  (kind c = Interface -> vFunctions c ≠ [] ->
   Forall (fun fn => isSelectorHash (canonicalSignatureHash fn) = true) (vFunctions c) ->
   let x := xorFold (List.map (fun fn => hexValue (canonicalSignatureHash fn))
                       (vFunctions c)) in
   interfaceId c = Ok (Some (fixedHex 8 x)) /\
   String.length (fixedHex 8 x) = 8%nat /\
   string_forallb isLowerHexDigit (fixedHex 8 x) = true /\
   parseHexDigits 0 (fixedHex 8 x) = Some x).
Proof.
  split; [| split].
  - intros Hk. unfold interfaceId. now rewrite bool_decide_eq_true_2.
  - apply interfaceId_no_functions.
  - intros Hk Hne Hsel x.
    assert (Hval : List.map (fun fn => hashValue (canonicalSignatureHash fn)) (vFunctions c)
                   = List.map (fun fn => hexValue (canonicalSignatureHash fn)) (vFunctions c)).
    { apply map_ext_in. intros fn Hin.
      rewrite List.Forall_forall in Hsel. specialize (Hsel fn Hin).
      apply BigInt_0x_selector in Hsel as [Heq _].
      unfold hashValue. now rewrite Heq. }
    assert (Hx : 0 <= x < 2 ^ 32).
    { unfold x, xorFold. apply fold_lxor_range; [lia |].
      apply List.Forall_map. eapply List.Forall_impl; [| exact Hsel].
      intros fn Hfn. simpl. now apply BigInt_0x_selector in Hfn as [_ ?]. }
    split; [| split; [| split]].
    + rewrite interfaceId_fold; [| exact Hk | exact Hne |].
      * rewrite Hval. fold x. now rewrite toString16_padStart.
      * eapply List.Forall_impl; [| exact Hsel].
        intros fn Hfn. simpl. apply BigInt_0x_selector in Hfn as [Heq _]. eauto.
    + apply fixedHex_length.
    + apply fixedHex_lower.
    + rewrite fixedHex_value. f_equal.
      change (16 ^ Z.of_nat 8) with (2 ^ 32). apply Z.mod_small. exact Hx.
Qed.

Lemma interfaceId_spec_witness :
  let c := exampleContract Interface DocUndefined
             [exampleFunction 2 "aabbccdd"; exampleFunction 3 "11223344"] in
  interfaceId c = Ok (Some "bb99ff99").
Proof.
  intros c.
  refine (proj1 (proj2 (proj2 (interfaceId_spec c)) _ _ _)).
  - reflexivity.
  - discriminate.
  - repeat constructor.
Defined.

(** C2: on interfaces, [interfaceId] does not depend on the order of the
    functions: two interfaces whose function lists are permutations of one
    another, with hashes that [BigInt] accepts, have the same interfaceId;
    and the hashes "aabbccdd" and "11223344" give "bb99ff99" in either
    order. *)
Theorem interfaceId_permutation :
  (forall c1 c2 : ContractDefinition,
     kind c1 = Interface -> kind c2 = Interface ->
     Permutation (vFunctions c1) (vFunctions c2) ->
     Forall (fun fn => exists v, BigInt_0x (canonicalSignatureHash fn) = Ok v)
       (vFunctions c1) ->
     interfaceId c1 = interfaceId c2) /\
  (forall (c : ContractDefinition) (f g : ASTNode),
     kind c = Interface ->
     canonicalSignatureHash f = "aabbccdd" ->
     canonicalSignatureHash g = "11223344" ->
     vFunctions c = [f; g] \/ vFunctions c = [g; f] ->
     interfaceId c = Ok (Some "bb99ff99")).
Proof.
  split.
  - intros c1 c2 Hk1 Hk2 Hperm Hall.
    destruct (vFunctions c1) as [|f1 l1] eqn:E1.
    + apply Permutation_nil in Hperm.
      now rewrite !interfaceId_no_functions.
    + assert (Hne2 : vFunctions c2 ≠ []).
      { intros Hnil. rewrite Hnil in Hperm.
        apply Permutation_sym, Permutation_nil in Hperm. discriminate. }
      rewrite (interfaceId_fold c1), (interfaceId_fold c2); try assumption.
      * do 4 f_equal. unfold xorFold. apply fold_lxor_permutation.
        rewrite E1. now apply Permutation_map.
      * eapply Permutation_Forall; [exact Hperm | exact Hall].
      * rewrite E1. discriminate.
      * now rewrite E1.
  - intros c f g Hk Hf Hg Hfg.
    assert (Hall : Forall (fun fn => exists v, BigInt_0x (canonicalSignatureHash fn) = Ok v)
                     (vFunctions c)).
    { destruct Hfg as [-> | ->]; repeat constructor; rewrite ?Hf, ?Hg; eexists; reflexivity. }
    rewrite interfaceId_fold; [| exact Hk | destruct Hfg as [-> | ->]; discriminate | exact Hall].
    destruct Hfg as [-> | ->]; simpl; rewrite Hf, Hg; reflexivity.
Qed.

Lemma interfaceId_permutation_witness :
  let f := exampleFunction 2 "aabbccdd" in
  let g := exampleFunction 3 "11223344" in
  interfaceId (exampleContract Interface DocUndefined [f; g])
  = interfaceId (exampleContract Interface DocUndefined [g; f]) /\
  interfaceId (exampleContract Interface DocUndefined [g; f]) = Ok (Some "bb99ff99").
Proof.
  intros f g. split.
  - apply (proj1 interfaceId_permutation).
    + reflexivity.
    + reflexivity.
    + apply perm_swap.
    + repeat constructor; eexists; reflexivity.
  - apply (proj2 interfaceId_permutation _ f g).
    + reflexivity.
    + reflexivity.
    + reflexivity.
    + right. reflexivity.
Defined.

(** ** documentation *)

Section Documentation.

Local Abbreviation isSD := (instanceof StructuredDocumentation).

Lemma find_split (p : ASTNode -> bool) (l : list ASTNode) (o : ASTNode) :
  List.find p l = Some o ->
  exists l1 l2, l = l1 ++ o :: l2 /\ p o = true /\ Forall (fun x => p x = false) l1.
Proof.
  induction l as [|x l IH]; simpl; [discriminate |].
  destruct (p x) eqn:Hx.
  - intros [= ->]. exists [], l. repeat split; [exact Hx | constructor].
  - intros Hf. destruct (IH Hf) as (l1 & l2 & -> & Ho & Hl1).
    exists (x :: l1), l2. repeat split; [exact Ho | now constructor].
Qed.

Lemma find_none (p : ASTNode -> bool) (l : list ASTNode) :
  List.find p l = None <-> Forall (fun x => p x = false) l.
Proof.
  induction l as [|x l IH]; simpl.
  - split; [constructor | reflexivity].
  - destruct (p x) eqn:Hx.
    + split; [discriminate | intros H; inversion H; congruence].
    + rewrite IH. split; [now constructor | intros H; now inversion H].
Qed.

Lemma find_app_skip (p : ASTNode -> bool) (l1 l : list ASTNode) :
  Forall (fun x => p x = false) l1 -> List.find p (l1 ++ l) = List.find p l.
Proof.
  induction 1 as [|x l1 Hx _ IH]; simpl; [reflexivity | now rewrite Hx].
Qed.

Lemma indexOf_middle (o : ASTNode) (l1 l2 : list ASTNode) :
  o ∉ l1 -> indexOf o (l1 ++ o :: l2) = Some (length l1).
Proof.
  induction l1 as [|x l1 IH]; simpl; intros Hnin.
  - now rewrite bool_decide_eq_true_2.
  - rewrite bool_decide_eq_false_2 by (intros ->; apply Hnin; left).
    rewrite IH; [reflexivity |]. intros Hin. apply Hnin. now right.
Qed.

Lemma indexOf_None (o : ASTNode) (l : list ASTNode) :
  o ∉ l -> indexOf o l = None.
Proof.
  induction l as [|x l IH]; simpl; intros Hnin; [reflexivity |].
  rewrite bool_decide_eq_false_2 by (intros ->; apply Hnin; left).
  rewrite IH; [reflexivity |]. intros Hin. apply Hnin. now right.
Qed.

Lemma not_elem_of_other_class (p : ASTNode -> bool) (o : ASTNode) (l : list ASTNode) :
  p o = true -> Forall (fun x => p x = false) l -> o ∉ l.
Proof.
  intros Ho Hl Hin. rewrite List.Forall_forall in Hl.
  apply list_elem_of_In in Hin. specialize (Hl o Hin). congruence.
Qed.

Lemma insert_middle (l1 l2 : list ASTNode) (o x : ASTNode) :
  <[length l1 := x]> (l1 ++ o :: l2) = l1 ++ x :: l2.
Proof.
  rewrite <- (Nat.add_0_r (length l1)). now rewrite insert_app_r.
Qed.

(** What the getter says about the state. *)
Lemma documentation_node (c : ContractDefinition) (o : ASTNode) :
  documentation c = DocNode o ->
  docString c = None /\
  exists l1 l2, ownChildren c = l1 ++ o :: l2 /\ isSD o = true
                /\ noStructuredDocumentation l1.
Proof.
  unfold documentation.
  destruct (docString c); [discriminate |].
  destruct (List.find isSD (ownChildren c)) as [o'|] eqn:Hf; [| discriminate].
  intros [= ->]. split; [reflexivity |].
  destruct (find_split _ _ _ Hf) as (l1 & l2 & ? & ? & ?). eauto.
Qed.

Lemma documentation_not_node (c : ContractDefinition) :
  isStructuredDocumentation (documentation c) = None ->
  (exists s, docString c = Some s)
  \/ (docString c = None /\ noStructuredDocumentation (ownChildren c)).
Proof.
  unfold documentation.
  destruct (docString c) as [s|]; [eauto |].
  destruct (List.find isSD (ownChildren c)) as [o|] eqn:Hf.
  - apply find_some in Hf as [_ Ho]. simpl. now rewrite Ho.
  - intros _. right. split; [reflexivity | now apply find_none].
Qed.

Lemma isStructuredDocumentation_node (o : ASTNode) :
  isSD o = true -> isStructuredDocumentation (DocNode o) = Some o.
Proof. simpl. now intros ->. Qed.

Lemma isStructuredDocumentation_Some (v : Documentation) (D : ASTNode) :
  isStructuredDocumentation v = Some D -> v = DocNode D /\ isSD D = true.
Proof.
  destruct v as [| |D']; try discriminate. simpl.
  destruct (isSD D') eqn:HD; [| discriminate]. now intros [= <-].
Qed.

(** The five rows of the setter. *)
Lemma set_documentation_insert (c : ContractDefinition) (D : ASTNode) :
  isSD D = true ->
  isStructuredDocumentation (documentation c) = None ->
  set_documentation (DocNode D) c
  = (Ok tt, with_children (D :: ownChildren c) (<[D := self c]> (parent c))
              (with_docString None c)).
Proof.
  intros HD Hold. unfold set_documentation.
  rewrite (isStructuredDocumentation_node D HD), Hold. reflexivity.
Qed.

Lemma set_documentation_same (c : ContractDefinition) (D : ASTNode) :
  documentation c = DocNode D ->
  set_documentation (DocNode D) c = (Ok tt, c).
Proof.
  intros Hold. destruct (documentation_node c D Hold) as (Hs & l1 & l2 & _ & HD & _).
  unfold set_documentation.
  rewrite Hold, (isStructuredDocumentation_node D HD).
  unfold mbind, M_bind, modify. simpl.
  rewrite bool_decide_eq_false_2 by (intros Hne; now apply Hne).
  unfold mret, M_ret. f_equal.
  destruct c; simpl in *; subst; reflexivity.
Qed.

Lemma set_documentation_replace (c : ContractDefinition) (D o : ASTNode)
    (l1 l2 : list ASTNode) :
  isSD D = true -> documentation c = DocNode o -> D ≠ o ->
  ownChildren c = l1 ++ o :: l2 -> noStructuredDocumentation l1 ->
  set_documentation (DocNode D) c
  = (Ok tt, with_children (l1 ++ D :: l2) (<[D := self c]> (delete o (parent c)))
              (with_docString None c)).
Proof.
  intros HD Hold Hne Hl Hl1.
  destruct (documentation_node c o Hold) as (_ & _ & _ & _ & Ho & _).
  unfold set_documentation.
  rewrite Hold, (isStructuredDocumentation_node D HD),
    (isStructuredDocumentation_node o Ho).
  unfold mbind, M_bind, modify, replaceChild. simpl.
  rewrite bool_decide_eq_true_2 by exact Hne.
  change (ownChildren (with_docString None c)) with (ownChildren c).
  rewrite Hl, indexOf_middle by (now apply not_elem_of_other_class with isSD).
  now rewrite insert_middle.
Qed.

Lemma set_documentation_remove (c : ContractDefinition) (v : Documentation)
    (o : ASTNode) (l1 l2 : list ASTNode) :
  isStructuredDocumentation v = None -> documentation c = DocNode o ->
  ownChildren c = l1 ++ o :: l2 -> noStructuredDocumentation l1 ->
  set_documentation v c
  = (Ok tt, with_docString (asDocString v)
              (with_children (l1 ++ l2) (delete o (parent c)) c)).
Proof.
  intros Hv Hold Hl Hl1.
  destruct (documentation_node c o Hold) as (_ & _ & _ & _ & Ho & _).
  unfold set_documentation.
  rewrite Hold, Hv, (isStructuredDocumentation_node o Ho).
  unfold mbind, M_bind, modify, removeChild. simpl.
  rewrite Hl, indexOf_middle by (now apply not_elem_of_other_class with isSD).
  now rewrite delete_middle.
Qed.

Lemma set_documentation_store (c : ContractDefinition) (v : Documentation) :
  isStructuredDocumentation v = None ->
  isStructuredDocumentation (documentation c) = None ->
  set_documentation v c = (Ok tt, with_docString (asDocString v) c).
Proof.
  intros Hv Hold. unfold set_documentation. rewrite Hv, Hold. reflexivity.
Qed.

(** The setter never throws. *)
Lemma set_documentation_returns (c : ContractDefinition) (v : Documentation) :
  fst (set_documentation v c) = Ok tt.
Proof.
  destruct (isStructuredDocumentation v) as [D|] eqn:Hv;
    destruct (isStructuredDocumentation (documentation c)) as [o|] eqn:Hold.
  - apply isStructuredDocumentation_Some in Hv as [-> HD].
    apply isStructuredDocumentation_Some in Hold as [Hdoc Ho].
    destruct (decide (D = o)) as [-> | Hne].
    + now rewrite set_documentation_same.
    + destruct (documentation_node c o Hdoc) as (_ & l1 & l2 & Hl & _ & Hl1).
      now rewrite (set_documentation_replace c D o l1 l2).
  - apply isStructuredDocumentation_Some in Hv as [-> HD].
    now rewrite set_documentation_insert.
  - apply isStructuredDocumentation_Some in Hold as [Hdoc Ho].
    destruct (documentation_node c o Hdoc) as (_ & l1 & l2 & Hl & _ & Hl1).
    now rewrite (set_documentation_remove c v o l1 l2).
  - now rewrite set_documentation_store.
Qed.

Lemma count_zero (l : list ASTNode) :
  length (List.filter isSD l) = 0%nat <-> noStructuredDocumentation l.
Proof.
  unfold noStructuredDocumentation.
  induction l as [|x l IH]; simpl.
  - split; [constructor | reflexivity].
  - destruct (isSD x) eqn:Hx; simpl.
    + split; [discriminate | intros H; inversion H; congruence].
    + rewrite IH. split; [now constructor | intros H; now inversion H].
Qed.

Lemma count_middle (l1 l2 : list ASTNode) (o : ASTNode) :
  isSD o = true ->
  length (List.filter isSD (l1 ++ o :: l2))
  = S (length (List.filter isSD l1) + length (List.filter isSD l2)).
Proof.
  intros Ho. rewrite List.filter_app. simpl. rewrite Ho.
  rewrite length_app. simpl. lia.
Qed.

Lemma getView_filter (v : View) (c : ContractDefinition) :
  getView v c = List.filter (instanceof (viewClass v)) (ownChildren c).
Proof. destruct v; reflexivity. Qed.

Lemma viewClass_not_documentation (v : View) (o : ASTNode) :
  isSD o = true -> instanceof (viewClass v) o = false.
Proof.
  unfold instanceof. intros Ho. apply bool_decide_eq_true in Ho.
  apply bool_decide_eq_false. rewrite Ho. destruct v; discriminate.
Qed.

(** Consistency of the two representations is kept by every assignment. *)
Lemma docConsistent_assign (c : ContractDefinition) (v : Documentation) :
  docConsistent c -> docConsistent (assignDocumentation v c).
Proof.
  unfold assignDocumentation. intros Hinv.
  destruct (isStructuredDocumentation v) as [D|] eqn:Hv;
    destruct (isStructuredDocumentation (documentation c)) as [o|] eqn:Hold.
  - apply isStructuredDocumentation_Some in Hv as [-> HD].
    apply isStructuredDocumentation_Some in Hold as [Hdoc Ho].
    destruct (decide (D = o)) as [-> | Hne].
    + now rewrite set_documentation_same.
    + destruct (documentation_node c o Hdoc) as (Hs & l1 & l2 & Hl & _ & Hl1).
      rewrite (set_documentation_replace c D o l1 l2) by assumption.
      unfold docConsistent, structuredCount in *. simpl.
      rewrite Hs, Hl in Hinv. rewrite count_middle in Hinv |- * by assumption.
      exact Hinv.
  - apply isStructuredDocumentation_Some in Hv as [-> HD].
    rewrite set_documentation_insert by assumption.
    unfold docConsistent, structuredCount in *. simpl. rewrite HD. simpl.
    destruct (documentation_not_node c Hold) as [[s Hs] | [Hs Hno]].
    + rewrite Hs in Hinv. lia.
    + apply count_zero in Hno. lia.
  - apply isStructuredDocumentation_Some in Hold as [Hdoc Ho].
    destruct (documentation_node c o Hdoc) as (Hs & l1 & l2 & Hl & _ & Hl1).
    rewrite (set_documentation_remove c v o l1 l2) by assumption.
    unfold docConsistent, structuredCount in *. simpl.
    rewrite Hs, Hl, count_middle in Hinv by assumption.
    rewrite List.filter_app, length_app.
    destruct (asDocString v); lia.
  - rewrite set_documentation_store by assumption.
    unfold docConsistent, structuredCount in *. simpl.
    destruct (documentation_not_node c Hold) as [[s Hs] | [Hs Hno]].
    + rewrite Hs in Hinv. rewrite Hinv. destruct (asDocString v); lia.
    + apply count_zero in Hno. rewrite Hno. destruct (asDocString v); lia.
Qed.

(** Assigning anything but a node leaves no structured child behind,
    when the representations were consistent. *)
Lemma assign_text_children (c : ContractDefinition) (v : Documentation) :
  isStructuredDocumentation v = None -> docConsistent c ->
  docString (assignDocumentation v c) = asDocString v /\
  noStructuredDocumentation (ownChildren (assignDocumentation v c)).
Proof.
  unfold assignDocumentation. intros Hv Hinv.
  destruct (isStructuredDocumentation (documentation c)) as [o|] eqn:Hold.
  - apply isStructuredDocumentation_Some in Hold as [Hdoc Ho].
    destruct (documentation_node c o Hdoc) as (Hs & l1 & l2 & Hl & _ & Hl1).
    rewrite (set_documentation_remove c v o l1 l2) by assumption.
    simpl. split; [reflexivity |].
    unfold docConsistent, structuredCount in Hinv.
    rewrite Hs, Hl, count_middle in Hinv by assumption.
    apply count_zero. rewrite List.filter_app, length_app. lia.
  - rewrite set_documentation_store by assumption.
    simpl. split; [reflexivity |].
    destruct (documentation_not_node c Hold) as [[s Hs] | [Hs Hno]]; [| exact Hno].
    unfold docConsistent in Hinv. rewrite Hs in Hinv. now apply count_zero.
Qed.

End Documentation.

(** C3 (as the code has it): when the current documentation is a plain
    string, assigning a plain string [s] touches neither the children nor
    any parent link; it replaces the stored text, so the getter returns [s]
    afterwards, and the state is unchanged exactly when [s] is the string
    that was stored. *)
Theorem documentation_string_to_string (c : ContractDefinition) (old s : string) :
  documentation c = DocString old ->
  let c' := assignDocumentation (DocString s) c in
  set_documentation (DocString s) c = (Ok tt, with_docString (Some s) c) /\
  ownChildren c' = ownChildren c /\
  parent c' = parent c /\
  documentation c' = DocString s /\
  (c' = c <-> s = old).
Proof.
  intros Hold c'.
  assert (Hs : docString c = Some old).
  { unfold documentation in Hold. destruct (docString c); [congruence |].
    destruct (List.find _ _); discriminate. }
  assert (Hset : set_documentation (DocString s) c = (Ok tt, with_docString (Some s) c)).
  { rewrite set_documentation_store; [reflexivity | reflexivity | now rewrite Hold]. }
  unfold c', assignDocumentation. rewrite Hset. simpl.
  repeat split.
  - intros Heq. apply (f_equal docString) in Heq. simpl in Heq. congruence.
  - intros ->. destruct c; simpl in *; subst; reflexivity.
Qed.

Lemma documentation_string_to_string_witness :
  documentation (assignDocumentation (DocString "b")
                   (exampleContract Contract (DocString "a") []))
  = DocString "b".
Proof.
  refine (proj1 (proj2 (proj2 (proj2
    (documentation_string_to_string
       (exampleContract Contract (DocString "a") []) "a" "b" _))))).
  reflexivity.
Defined.

(** C3 as stated fails: on a contract documented by "a", assigning "b"
    changes what the getter returns. *)
Lemma string_to_string_changes :
  ~ stringAssignmentIsNoop (exampleContract Contract (DocString "a") []) "b".
Proof.
  unfold stringAssignmentIsNoop. intros (_ & H & _).
  vm_compute in H. discriminate.
Qed.

(** C4 (as the code has it): after a [StructuredDocumentation] node [D] is
    assigned, the getter returns [D].  When the previous documentation was
    absent or a plain string, [D] is inserted in front and is
    [ownChildren[0]]; when it was a node [o], [D] takes the place of [o] in
    the list, so that [D] is [ownChildren[0]] exactly when [o] was. *)
Theorem documentation_node_assigned (c : ContractDefinition) (D : ASTNode) :
  class D = StructuredDocumentation ->
  let c' := assignDocumentation (DocNode D) c in
  fst (set_documentation (DocNode D) c) = Ok tt /\
  documentation c' = DocNode D /\
  (documentation c = DocUndefined \/ (exists s, documentation c = DocString s) ->
   ownChildren c' = D :: ownChildren c /\ ownChildren c' !! 0%nat = Some D) /\
  (forall o, documentation c = DocNode o ->
   exists l1 l2 : list ASTNode,
     ownChildren c = l1 ++ o :: l2 /\ noStructuredDocumentation l1 /\
     ownChildren c' = l1 ++ D :: l2 /\
     (ownChildren c' !! 0%nat = Some D <-> ownChildren c !! 0%nat = Some o)).
Proof.
  intros HD c'.
  assert (HD' : instanceof StructuredDocumentation D = true)
    by now apply bool_decide_eq_true.
  split; [apply set_documentation_returns |].
  unfold c', assignDocumentation.
  destruct (documentation c) as [|s|o] eqn:Hdoc.
  - rewrite set_documentation_insert by (assumption || now rewrite Hdoc).
    simpl. split; [| split].
    + unfold documentation. simpl. now rewrite HD'.
    + intros _. split; reflexivity.
    + intros o [=].
  - rewrite set_documentation_insert by (assumption || now rewrite Hdoc).
    simpl. split; [| split].
    + unfold documentation. simpl. now rewrite HD'.
    + intros _. split; reflexivity.
    + intros o [=].
  - destruct (documentation_node c o Hdoc) as (Hs & l1 & l2 & Hl & Ho & Hl1).
    assert (Hhead : forall x y : ASTNode,
               instanceof StructuredDocumentation x = true ->
               instanceof StructuredDocumentation y = true ->
               (l1 ++ x :: l2) !! 0%nat = Some x <-> (l1 ++ y :: l2) !! 0%nat = Some y).
    { intros x y Hx Hy. destruct l1 as [|z l1]; simpl; [tauto |].
      inversion Hl1; subst. split; intros [= ->]; congruence. }
    destruct (decide (D = o)) as [-> | Hne].
    + rewrite set_documentation_same by exact Hdoc. simpl.
      split; [exact Hdoc | split].
      * intros [[=] | [s [=]]].
      * intros o' [= <-]. exists l1, l2. rewrite Hl. repeat split; tauto.
    + rewrite (set_documentation_replace c D o l1 l2) by assumption. simpl.
      split; [| split].
      * unfold documentation. simpl.
        rewrite find_app_skip by exact Hl1. simpl. now rewrite HD'.
      * intros [[=] | [s [=]]].
      * intros o' [= <-]. exists l1, l2. rewrite Hl.
        split; [reflexivity | split; [exact Hl1 | split; [reflexivity |]]].
        now apply Hhead.
Qed.

Lemma documentation_node_assigned_witness :
  let c := exampleContract Contract (DocString "desc") [] in
  documentation (assignDocumentation (DocNode (exampleDoc 5)) c) = DocNode (exampleDoc 5)
  /\ ownChildren (assignDocumentation (DocNode (exampleDoc 5)) c) !! 0%nat
     = Some (exampleDoc 5).
Proof.
  intros c.
  pose proof (documentation_node_assigned c (exampleDoc 5) eq_refl) as (_ & Hget & Hfirst & _).
  split; [exact Hget |].
  apply Hfirst. right. exists "desc". reflexivity.
Defined.

(** C4 as stated fails: a contract built from the children [F; D1] with the
    documentation [D1] keeps [F] first, and so it does after [D2] is
    assigned: [D2] replaces [D1] at index 1. *)
Lemma node_assigned_not_first :
  ~ nodeAssignedFirst
      (exampleContract Contract (DocNode (exampleDoc 5))
         [exampleFunction 2 "aabbccdd"; exampleDoc 5])
      (exampleDoc 6).
Proof.
  unfold nodeAssignedFirst. intros (_ & H).
  vm_compute in H. discriminate.
Qed.

(** C5 (as the code has it): after a plain string [s] is assigned the
    getter returns [s]; no [StructuredDocumentation] node is left among the
    children provided the two representations were consistent before (no
    such child next to a stored text, at most one otherwise), and every
    assignment to [documentation] keeps them consistent. *)
Theorem documentation_string_assigned (c : ContractDefinition) (s : string) :
  let c' := assignDocumentation (DocString s) c in
  documentation c' = DocString s /\
  (docConsistent c -> noStructuredDocumentation (ownChildren c')) /\
  (forall v, docConsistent c -> docConsistent (assignDocumentation v c)).
Proof.
  intros c'. split; [| split].
  - unfold c', assignDocumentation, documentation.
    destruct (isStructuredDocumentation (documentation c)) as [o|] eqn:Hold.
    + apply isStructuredDocumentation_Some in Hold as [Hdoc Ho].
      destruct (documentation_node c o Hdoc) as (Hs & l1 & l2 & Hl & _ & Hl1).
      now rewrite (set_documentation_remove c (DocString s) o l1 l2).
    + now rewrite set_documentation_store.
  - intros Hinv. now apply (assign_text_children c (DocString s)).
  - intros v. apply docConsistent_assign.
Qed.

Lemma documentation_string_assigned_witness :
  let c := exampleContract Contract (DocNode (exampleDoc 5)) [exampleFunction 2 "aabbccdd"] in
  noStructuredDocumentation (ownChildren (assignDocumentation (DocString "x") c))
  /\ docConsistent (assignDocumentation (DocString "x") c).
Proof.
  intros c.
  assert (Hc : docConsistent c) by (vm_compute; lia).
  pose proof (documentation_string_assigned c "x") as (_ & Hno & Hkeep).
  split; [exact (Hno Hc) | exact (Hkeep (DocString "x") Hc)].
Defined.

(** C5 as stated fails: a contract built from the children [D1; D2] with
    the documentation "a" keeps [D2], and assigning another string removes
    nothing. *)
Lemma text_does_not_exclude_node :
  ~ textExcludesNode
      (exampleContract Contract (DocString "a") [exampleDoc 5; exampleDoc 6]) "x".
Proof.
  unfold textExcludesNode. intros (_ & H).
  vm_compute in H. inversion H as [|? ? Hhd _]. discriminate.
Qed.

(** C9 (as the code has it): assigning [undefined] never throws and clears
    the stored text; when no text was stored, the node the getter returned
    is removed from the children, and nothing else is; the nine views are
    unchanged; the getter returns [undefined] afterwards provided the two
    representations were consistent before. *)
Theorem documentation_undefined_assigned (c : ContractDefinition) :
  let c' := assignDocumentation DocUndefined c in
  fst (set_documentation DocUndefined c) = Ok tt /\
  docString c' = None /\
  (forall o, documentation c = DocNode o ->
   exists l1 l2 : list ASTNode,
     ownChildren c = l1 ++ o :: l2 /\ (o ∉ l1) /\ ownChildren c' = l1 ++ l2) /\
  (documentation c = DocUndefined \/ (exists s, documentation c = DocString s) ->
   ownChildren c' = ownChildren c) /\
  (forall v : View, getView v c' = getView v c) /\
  (docConsistent c ->
   documentation c' = DocUndefined /\ noStructuredDocumentation (ownChildren c')).
Proof.
  intros c'. split; [apply set_documentation_returns |].
  unfold c', assignDocumentation.
  destruct (documentation c) as [|s|o] eqn:Hdoc.
  1,2: rewrite set_documentation_store by (reflexivity || now rewrite Hdoc); simpl.
  1,2: split; [reflexivity | split; [intros o [=] | split; [reflexivity | split]]].
  1,3: intros v; now rewrite !getView_filter.
  1,2: intros Hinv;
       destruct (assign_text_children c DocUndefined eq_refl Hinv) as [_ Hno];
       unfold assignDocumentation in Hno;
       rewrite set_documentation_store in Hno by (reflexivity || now rewrite Hdoc);
       simpl in Hno; split; [| exact Hno];
       unfold documentation; simpl;
       apply find_none in Hno; now rewrite Hno.
  destruct (documentation_node c o Hdoc) as (Hs & l1 & l2 & Hl & Ho & Hl1).
  rewrite (set_documentation_remove c DocUndefined o l1 l2) by (reflexivity || assumption).
  simpl. split; [reflexivity | split; [| split; [| split]]].
  - intros o' [= <-]. exists l1, l2.
    split; [exact Hl | split; [| reflexivity]].
    now apply not_elem_of_other_class with (instanceof StructuredDocumentation).
  - intros [[=] | [s [=]]].
  - intros v. rewrite !getView_filter. simpl. rewrite Hl, !List.filter_app. simpl.
    now rewrite (viewClass_not_documentation v o Ho).
  - intros Hinv.
    destruct (assign_text_children c DocUndefined eq_refl Hinv) as [_ Hno].
    unfold assignDocumentation in Hno.
    rewrite (set_documentation_remove c DocUndefined o l1 l2) in Hno
      by (reflexivity || assumption).
    simpl in Hno. split; [| exact Hno].
    unfold documentation; simpl. apply find_none in Hno. now rewrite Hno.
Qed.

Lemma documentation_undefined_assigned_witness :
  let c := exampleContract Contract (DocNode (exampleDoc 5)) [exampleFunction 2 "aabbccdd"] in
  documentation (assignDocumentation DocUndefined c) = DocUndefined
  /\ ownChildren (assignDocumentation DocUndefined c) = [exampleFunction 2 "aabbccdd"].
Proof.
  intros c.
  assert (Hc : docConsistent c) by (vm_compute; lia).
  pose proof (documentation_undefined_assigned c) as (_ & _ & Hrm & _ & _ & Hget).
  split; [exact (proj1 (Hget Hc)) |].
  destruct (Hrm (exampleDoc 5) eq_refl) as (l1 & l2 & Hl & Hnin & Hl').
  rewrite Hl'. clear Hl'.
  destruct l1 as [|x l1].
  - injection Hl as <-. reflexivity.
  - injection Hl as <- _. exfalso. apply Hnin. left.
Defined.

(** C9 as stated fails: a contract built from the children [D1; D2; D3]
    without documentation keeps [D2; D3]; assigning [undefined] removes
    [D2] only, and the getter then returns [D3]. *)
Lemma undefined_does_not_clear :
  ~ undefinedClears
      (exampleContract Contract DocUndefined [exampleDoc 5; exampleDoc 6; exampleDoc 7]).
Proof.
  unfold undefinedClears. intros H.
  vm_compute in H. discriminate.
Qed.

(** ** vScope *)

(** C6: the [vScope] setter throws, and then throws the cross-context
    error, exactly when the registry of the node does not contain the
    target; the state, and so [scope], is then unchanged.  Otherwise it
    returns, [scope] is the id of the target and nothing else changes, and
    the getter is [locate] of the registry at [scope], which then finds the
    node registered under that id. *)
Theorem set_vScope_spec (c : ContractDefinition) (value : ASTNode) :
  let r := fst (set_vScope value c) in
  let c' := snd (set_vScope value c) in
  ((exists e, r = Throw e) <-> contains (requiredContext c) value = false) /\
  (r = Throw (CrossContextError (type value) (id value))
   <-> contains (requiredContext c) value = false) /\
  (contains (requiredContext c) value = false -> c' = c /\ scope c' = scope c) /\
  (contains (requiredContext c) value = true ->
   r = Ok tt /\ c' = with_scope (id value) c /\ scope c' = id value /\
   vScope c' = locate (requiredContext c') (scope c') /\
   exists node, registered (requiredContext c) !! id value = Some node
                /\ vScope c' = Ok node).
Proof.
  cbv zeta. unfold set_vScope.
  destruct (contains (requiredContext c) value) eqn:Hc; simpl.
  - split; [| split; [| split]].
    + split; [intros [e [=]] | discriminate].
    + split; discriminate.
    + discriminate.
    + intros _. repeat split.
      unfold contains in Hc. apply bool_decide_eq_true in Hc as [node Hnode].
      exists node. split; [exact Hnode |].
      unfold vScope, locate. simpl. now rewrite Hnode.
  - split; [| split; [| split]].
    + split; [reflexivity | eauto].
    + split; reflexivity.
    + intros _. split; reflexivity.
    + discriminate.
Qed.

Lemma set_vScope_spec_witness :
  let unit := mkNode 9 SourceUnit 7 "SourceUnit" "" false in
  let c := with_scope 0 (mkContract (exampleNode ContractDefinitionClass 1) None "C" None 0
                           Contract false true [1] [] [] ∅
                           (mkContext (<[7 := unit]> ∅))) in
  scope (snd (set_vScope unit c)) = 7 /\
  snd (set_vScope (exampleNode SourceUnit 8) c) = c.
Proof.
  intros unit c. split.
  - pose proof (set_vScope_spec c unit) as H. cbv zeta in H.
    destruct H as (_ & _ & _ & Hok).
    destruct Hok as (_ & _ & Hscope & _); [vm_compute; reflexivity | exact Hscope].
  - pose proof (set_vScope_spec c (exampleNode SourceUnit 8)) as H. cbv zeta in H.
    destruct H as (_ & _ & Hfail & _).
    destruct Hfail as (Hsame & _); [vm_compute; reflexivity | exact Hsame].
Defined.

(** ** isSubclassOf *)

Section Registry.

Context (ctx : ASTContext).

Lemma wf_context_empty : wf_context (mkContext ∅).
Proof. intros i node. simpl. now rewrite lookup_empty. Qed.

(** [register] keeps every node under its own id. *)
Lemma register_wf (node : ASTNode) (ctx' : ASTContext) :
  wf_context ctx -> register node ctx = Ok ctx' -> wf_context ctx'.
Proof.
  unfold register. intros Hwf.
  destruct (registered ctx !! id node) eqn:Hfree; [discriminate |].
  intros [= <-] i other. simpl. intros H.
  apply lookup_insert_Some in H as [[<- <-] | [_ H]]; [reflexivity |].
  now apply Hwf.
Qed.

(** A node registered and then located by its id is found again. *)
Lemma register_locate (node : ASTNode) (ctx' : ASTContext) :
  register node ctx = Ok ctx' ->
  locate ctx' (id node) = Ok node /\ contains ctx' node = true.
Proof.
  unfold register, locate, contains.
  destruct (registered ctx !! id node) eqn:Hfree; [discriminate |].
  intros [= <-]. simpl. rewrite lookup_insert_eq.
  split; [reflexivity |]. apply bool_decide_eq_true. eauto.
Qed.

Lemma mapR_locate (ids : list Z) :
  Forall (fun i => is_Some (registered ctx !! i)) ids ->
  exists bases, mapR (fun i => locate ctx i) ids = Ok bases
                /\ Forall2 (fun i node => registered ctx !! i = Some node) ids bases.
Proof.
  induction 1 as [|i ids [node Hi] _ (bases & Hmap & Hall)].
  - exists []. split; [reflexivity | constructor].
  - exists (node :: bases). split; [| now constructor].
    simpl. unfold locate at 1. rewrite Hi. simpl. now rewrite Hmap.
Qed.

Hypothesis Hwf : wf_context ctx.

Lemma located_elem_of (ids : list Z) (bases : list ASTNode) (other : ASTNode) :
  registered ctx !! id other = Some other ->
  Forall2 (fun i node => registered ctx !! i = Some node) ids bases ->
  other ∈ bases <-> id other ∈ ids.
Proof.
  intros Hother. induction 1 as [|i node ids bases Hi _ IH].
  - split; intros H; inversion H.
  - rewrite !elem_of_cons, IH. split; intros [H | H]; auto; left.
    + subst node. exact (Hwf _ _ Hi).
    + rewrite <- H in Hi. congruence.
Qed.

End Registry.

(** C7: for a node [other] registered in the registry of [c], with every
    id of the linearization resolving (invariant 1) in a registry that
    keeps each node under its own id, [c.isSubclassOf(other)] returns, and
    returns true exactly when the id of [other] is in
    [linearizedBaseContracts]; and with [linearizedBaseContracts[0]] the id
    of [c] and [locate] of that id being [c], [c.isSubclassOf(c)] is
    true. *)
Theorem isSubclassOf_spec (c : ContractDefinition) :
  let ctx := requiredContext c in
  (forall other : ASTNode,
     wf_context ctx ->
     Forall (fun i => is_Some (registered ctx !! i)) (linearizedBaseContracts c) ->
     registered ctx !! id other = Some other ->
     isSubclassOf c other = Ok (bool_decide (id other ∈ linearizedBaseContracts c))
     /\ (isSubclassOf c other = Ok true <-> id other ∈ linearizedBaseContracts c)) /\
  (Forall (fun i => is_Some (registered ctx !! i)) (linearizedBaseContracts c) ->
   linearizedBaseContracts c !! 0%nat = Some (id (self c)) ->
   locate ctx (id (self c)) = Ok (self c) ->
   isSubclassOf c (self c) = Ok true).
Proof.
  intros ctx. split.
  - intros other Hwf Hres Hother.
    destruct (mapR_locate ctx _ Hres) as (bases & Hmap & Hall).
    assert (Heq : isSubclassOf c other
                  = Ok (bool_decide (id other ∈ linearizedBaseContracts c))).
    { unfold isSubclassOf, vLinearizedBaseContracts. fold ctx. rewrite Hmap. simpl.
      f_equal. apply bool_decide_ext. now apply (located_elem_of ctx Hwf). }
    split; [exact Heq |]. rewrite Heq. split.
    + intros [= H]. now apply bool_decide_eq_true in H.
    + intros H. f_equal. now apply bool_decide_eq_true.
  - intros Hres Hfirst Hself.
    destruct (mapR_locate ctx _ Hres) as (bases & Hmap & Hall).
    unfold isSubclassOf, vLinearizedBaseContracts. fold ctx. rewrite Hmap. simpl.
    f_equal. apply bool_decide_eq_true.
    destruct Hall as [|i node ids bases Hi _]; [discriminate |].
    injection Hfirst as ->. unfold locate in Hself. rewrite Hi in Hself.
    injection Hself as ->. left.
Qed.

Lemma isSubclassOf_spec_witness :
  let base := mkNode 4 ContractDefinitionClass 2 "ContractDefinition" "" false in
  let me := exampleNode ContractDefinitionClass 1 in
  let c := mkContract me None "C" None 0 Contract false true [1; 2] [] [] ∅
             (mkContext (<[1 := me]> (<[2 := base]> ∅))) in
  isSubclassOf c base = Ok true /\ isSubclassOf c me = Ok true.
Proof.
  intros base me c.
  assert (Hres : Forall (fun i => is_Some (registered (requiredContext c) !! i))
                   (linearizedBaseContracts c)).
  { repeat constructor; vm_compute; eauto. }
  assert (Hwf : wf_context (requiredContext c)).
  { intros i node. simpl. intros H.
    apply lookup_insert_Some in H as [[<- <-] | [_ H]]; [reflexivity |].
    apply lookup_insert_Some in H as [[<- <-] | [_ H]]; [reflexivity |].
    now rewrite lookup_empty in H. }
  split.
  - apply (proj1 (isSubclassOf_spec c) base Hwf Hres); [reflexivity |].
    simpl. rewrite !elem_of_cons. right; left; reflexivity.
  - apply (proj2 (isSubclassOf_spec c) Hres); reflexivity.
Defined.

(** ** The filtered views *)

Section Views.

Lemma subsequenceOfKind_filter (k : NodeClass) (l : list ASTNode) :
  subsequenceOfKind k l = List.filter (instanceof k) l.
Proof.
  induction l as [|x l IH]; simpl; [reflexivity |].
  unfold instanceof at 1. rewrite IH.
  destruct (decide (class x = k)) as [He | Hne].
  - now rewrite bool_decide_eq_true_2.
  - now rewrite bool_decide_eq_false_2.
Qed.

Lemma getView_subsequence (v : View) (c : ContractDefinition) :
  getView v c = subsequenceOfKind (viewClass v) (ownChildren c).
Proof. rewrite subsequenceOfKind_filter. destruct v; reflexivity. Qed.

Lemma subsequenceOfKind_app (k : NodeClass) (l1 l2 : list ASTNode) :
  subsequenceOfKind k (l1 ++ l2) = subsequenceOfKind k l1 ++ subsequenceOfKind k l2.
Proof. rewrite !subsequenceOfKind_filter. apply List.filter_app. Qed.

Lemma subsequenceOfKind_sublist (k : NodeClass) (l : list ASTNode) :
  sublist (subsequenceOfKind k l) l.
Proof.
  induction l as [|x l IH]; simpl; [constructor |].
  destruct (decide (class x = k)); now constructor.
Qed.

Lemma subsequenceOfKind_elem_of (k : NodeClass) (l : list ASTNode) (n : ASTNode) :
  n ∈ subsequenceOfKind k l <-> n ∈ l /\ class n = k.
Proof.
  rewrite subsequenceOfKind_filter, !list_elem_of_In, List.filter_In.
  unfold instanceof. now rewrite bool_decide_eq_true.
Qed.

Lemma removeChild_middle (c : ContractDefinition) (n : ASTNode) (l1 l2 : list ASTNode) :
  ownChildren c = l1 ++ n :: l2 -> n ∉ l1 ->
  removeChild n c = (Ok n, with_children (l1 ++ l2) (delete n (parent c)) c).
Proof.
  intros Hl Hnin. unfold removeChild.
  rewrite Hl, indexOf_middle by exact Hnin. now rewrite delete_middle.
Qed.

(** A node that is no child cannot be removed, and the tree is left as it
    was. *)
Lemma removeChild_not_child (c : ContractDefinition) (n : ASTNode) :
  n ∉ ownChildren c -> removeChild n c = (Throw NotAChild, c).
Proof. intros Hnin. unfold removeChild. now rewrite indexOf_None. Qed.

Lemma replaceChild_middle (c : ContractDefinition) (new old : ASTNode)
    (l1 l2 : list ASTNode) :
  ownChildren c = l1 ++ old :: l2 -> old ∉ l1 ->
  replaceChild new old c
  = (Ok old, with_children (l1 ++ new :: l2)
               (<[new := self c]> (delete old (parent c))) c).
Proof.
  intros Hl Hnin. unfold replaceChild.
  rewrite Hl, indexOf_middle by exact Hnin. now rewrite insert_middle.
Qed.

End Views.

(** C8: each of the nine views is, at every access, the nodes of its class
    among the current children, in the order of the children: it is
    computed from [ownChildren] of the state at hand, so that a child
    appended, inserted in front, removed or replaced shows in the view of
    the state after the call. *)
Theorem views_are_live (v : View) (c : ContractDefinition) :
  let k := viewClass v in
  getView v c = subsequenceOfKind k (ownChildren c) /\
  sublist (getView v c) (ownChildren c) /\
  (forall n, n ∈ getView v c <-> n ∈ ownChildren c /\ class n = k) /\
  (forall n, getView v (snd (appendChild n c))
             = getView v c ++ subsequenceOfKind k [n]) /\
  (forall n, getView v (snd (insertAtBeginning n c))
             = subsequenceOfKind k [n] ++ getView v c) /\
  (forall (n : ASTNode) (l1 l2 : list ASTNode),
     ownChildren c = l1 ++ n :: l2 -> n ∉ l1 ->
     fst (removeChild n c) = Ok n /\
     getView v (snd (removeChild n c))
     = subsequenceOfKind k l1 ++ subsequenceOfKind k l2) /\
  (forall (new old : ASTNode) (l1 l2 : list ASTNode),
     ownChildren c = l1 ++ old :: l2 -> old ∉ l1 ->
     fst (replaceChild new old c) = Ok old /\
     getView v (snd (replaceChild new old c))
     = subsequenceOfKind k l1 ++ subsequenceOfKind k [new] ++ subsequenceOfKind k l2).
Proof.
  intros k. unfold k.
  split; [apply getView_subsequence |].
  split; [rewrite getView_subsequence; apply subsequenceOfKind_sublist |].
  split; [intros n; rewrite getView_subsequence; apply subsequenceOfKind_elem_of |].
  split; [| split; [| split]].
  - intros n. rewrite !getView_subsequence. simpl ownChildren.
    apply subsequenceOfKind_app.
  - intros n. rewrite !getView_subsequence. simpl ownChildren.
    apply (subsequenceOfKind_app _ [n]).
  - intros n l1 l2 Hl Hnin. rewrite (removeChild_middle c n l1 l2 Hl Hnin).
    split; [reflexivity |]. rewrite getView_subsequence. simpl.
    apply subsequenceOfKind_app.
  - intros new old l1 l2 Hl Hnin. rewrite (replaceChild_middle c new old l1 l2 Hl Hnin).
    split; [reflexivity |]. rewrite getView_subsequence. simpl ownChildren.
    rewrite subsequenceOfKind_app. f_equal.
    apply (subsequenceOfKind_app _ [new]).
Qed.

Lemma views_are_live_witness :
  let f := exampleFunction 2 "aabbccdd" in
  let g := exampleFunction 3 "11223344" in
  let e := exampleNode EventDefinition 4 in
  let c := exampleContract Interface DocUndefined [f; e; g] in
  vFunctions c = [f; g] /\
  vFunctions (snd (removeChild f c)) = [g] /\
  vFunctions (snd (replaceChild e g c)) = [f].
Proof.
  intros f g e c. split; [| split].
  - exact (proj1 (views_are_live Functions c)).
  - refine (proj2 (proj1 (proj2 (proj2 (proj2 (proj2 (proj2 (views_are_live Functions c))))))
                     f [] [e; g] _ _)).
    + reflexivity.
    + apply not_elem_of_nil.
  - refine (proj2 (proj2 (proj2 (proj2 (proj2 (proj2 (proj2 (views_are_live Functions c))))))
                     e g [f; e] [] _ _)).
    + reflexivity.
    + intros Hin. apply list_elem_of_In in Hin. simpl in Hin.
      destruct Hin as [H | [H | []]]; discriminate.
Defined.

(** ** native.ts *)

(** C10: [getCompilerPrefixForOs] answers [undefined] whenever the
    architecture is neither "x64" nor "ia64"; on those two architectures it
    answers "linux-amd64" for the OS type "Linux", the one string
    "windows-amd64" for both "Windows_NT" and "Darwin", and [undefined] for
    every other OS type. *)
Theorem getCompilerPrefixForOs_table (os : Native.Os) :
  let r := Native.getCompilerPrefixForOs os in
  let a := Native.arch os in
  let t := Native.type os in
  (a ≠ "x64" -> a ≠ "ia64" -> r = None) /\
  (a = "x64" \/ a = "ia64" ->
   (t = "Linux" -> r = Some "linux-amd64") /\
   (t = "Windows_NT" \/ t = "Darwin" -> r = Some "windows-amd64") /\
   (t ≠ "Linux" -> t ≠ "Windows_NT" -> t ≠ "Darwin" -> r = None)).
Proof.
  cbv zeta. unfold Native.getCompilerPrefixForOs.
  destruct os as [a t]; simpl.
  repeat case_bool_decide; simpl;
    intuition (subst; try congruence; try discriminate).
Qed.

Lemma getCompilerPrefixForOs_table_witness :
  Native.getCompilerPrefixForOs (Native.mkOs "x64" "Darwin") = Some "windows-amd64"
  /\ Native.getCompilerPrefixForOs (Native.mkOs "arm64" "Darwin") = None.
Proof.
  split.
  - refine (proj1 (proj2 (proj2 (getCompilerPrefixForOs_table
                                   (Native.mkOs "x64" "Darwin")) _)) _).
    + left. reflexivity.
    + right. reflexivity.
  - refine (proj1 (getCompilerPrefixForOs_table (Native.mkOs "arm64" "Darwin")) _ _);
      discriminate.
Defined.

(** * Further properties of the code *)

(** ** Assignments to documentation, row by row *)

Section Assignment.

Local Abbreviation isSD := (instanceof StructuredDocumentation).

Lemma removeFirst_middle (l1 l2 : list ASTNode) (o : ASTNode) :
  noStructuredDocumentation l1 -> isSD o = true ->
  removeFirst isSD (l1 ++ o :: l2) = l1 ++ l2.
Proof.
  intros Hl1 Ho. induction Hl1 as [|x l1 Hx _ IH]; simpl.
  - now rewrite Ho.
  - now rewrite Hx, IH.
Qed.

Lemma replaceFirst_middle (l1 l2 : list ASTNode) (o y : ASTNode) :
  noStructuredDocumentation l1 -> isSD o = true ->
  replaceFirst isSD y (l1 ++ o :: l2) = l1 ++ y :: l2.
Proof.
  intros Hl1 Ho. induction Hl1 as [|x l1 Hx _ IH]; simpl.
  - now rewrite Ho.
  - now rewrite Hx, IH.
Qed.

Lemma removeFirst_none (l : list ASTNode) :
  noStructuredDocumentation l -> removeFirst isSD l = l.
Proof.
  induction 1 as [|x l Hx _ IH]; simpl; [reflexivity | now rewrite Hx, IH].
Qed.

Lemma existsb_none (l : list ASTNode) :
  noStructuredDocumentation l -> existsb isSD l = false.
Proof.
  induction 1 as [|x l Hx _ IH]; simpl; [reflexivity | now rewrite Hx, IH].
Qed.

Lemma existsb_middle (l1 l2 : list ASTNode) (o : ASTNode) :
  isSD o = true -> existsb isSD (l1 ++ o :: l2) = true.
Proof.
  intros Ho. rewrite existsb_app. simpl. rewrite Ho. apply orb_true_r.
Qed.

Lemma assignment_row (v : Documentation) (c : ContractDefinition) :
  AssignmentRow v c (assignDocumentation v c).
Proof.
  unfold assignDocumentation.
  destruct (isStructuredDocumentation v) as [D|] eqn:Hv;
    destruct (isStructuredDocumentation (documentation c)) as [o|] eqn:Hold.
  - apply isStructuredDocumentation_Some in Hv as [-> HD].
    apply isStructuredDocumentation_Some in Hold as [Hdoc Ho].
    destruct (decide (D = o)) as [-> | Hne].
    + apply RowSame with o; [reflexivity | exact Hdoc |].
      now rewrite set_documentation_same.
    + destruct (documentation_node c o Hdoc) as (_ & l1 & l2 & Hl & _ & Hl1).
      apply RowReplace with D o l1 l2; try assumption; [reflexivity |].
      now rewrite (set_documentation_replace c D o l1 l2).
  - apply isStructuredDocumentation_Some in Hv as [-> HD].
    apply RowInsert with D; try assumption; [reflexivity |].
    now rewrite set_documentation_insert.
  - apply isStructuredDocumentation_Some in Hold as [Hdoc Ho].
    destruct (documentation_node c o Hdoc) as (_ & l1 & l2 & Hl & _ & Hl1).
    apply RowRemove with o l1 l2; try assumption.
    now rewrite (set_documentation_remove c v o l1 l2).
  - apply RowStore; try assumption.
    now rewrite set_documentation_store.
Qed.

Lemma with_docString_same (c : ContractDefinition) :
  with_docString (docString c) c = c.
Proof. now destruct c. Qed.

Lemma documentation_with_text (s : string) (c : ContractDefinition) :
  documentation (with_docString (Some s) c) = DocString s.
Proof. reflexivity. Qed.

(** What the getter returns after an assignment. *)
Lemma assign_getter_node (c : ContractDefinition) (D : ASTNode) :
  isSD D = true -> documentation (assignDocumentation (DocNode D) c) = DocNode D.
Proof.
  intros HD.
  destruct (assignment_row (DocNode D) c)
    as [D' [= <-] _ _ -> | D' [= <-] Hdoc -> | D' o l1 l2 [= <-] _ _ _ _ Hl1 ->
        | o l1 l2 Hv | Hv].
  - unfold documentation. simpl. now rewrite HD.
  - exact Hdoc.
  - unfold documentation. simpl. rewrite find_app_skip by exact Hl1.
    simpl. now rewrite HD.
  - rewrite (isStructuredDocumentation_node D HD) in Hv. discriminate.
  - rewrite (isStructuredDocumentation_node D HD) in Hv. discriminate.
Qed.

Lemma assign_getter_string (c : ContractDefinition) (s : string) :
  documentation (assignDocumentation (DocString s) c) = DocString s.
Proof.
  destruct (assignment_row (DocString s) c)
    as [D [=] | D [=] | D o l1 l2 [=] | o l1 l2 _ _ _ _ -> | _ _ ->];
    reflexivity.
Qed.

Lemma assign_children (v : Documentation) (c : ContractDefinition) :
  ownChildren (assignDocumentation v c)
  = match isStructuredDocumentation v, isStructuredDocumentation (documentation c) with
    | Some D, Some _ => replaceFirst isSD D (ownChildren c)
    | Some D, None => D :: ownChildren c
    | None, Some _ => removeFirst isSD (ownChildren c)
    | None, None => ownChildren c
    end.
Proof.
  destruct (assignment_row v c)
    as [D -> HD Hold -> | D -> Hdoc -> | D o l1 l2 -> HD Hdoc _ Hl Hl1 ->
        | o l1 l2 Hv Hdoc Hl Hl1 -> | Hv Hold ->].
  - now rewrite (isStructuredDocumentation_node D HD), Hold.
  - destruct (documentation_node c D Hdoc) as (_ & l1 & l2 & Hl & HD & Hl1).
    rewrite Hdoc, (isStructuredDocumentation_node D HD), Hl.
    now rewrite replaceFirst_middle.
  - destruct (documentation_node c o Hdoc) as (_ & _ & _ & _ & Ho & _).
    rewrite Hdoc, (isStructuredDocumentation_node D HD),
      (isStructuredDocumentation_node o Ho), Hl.
    simpl. now rewrite replaceFirst_middle.
  - destruct (documentation_node c o Hdoc) as (_ & _ & _ & _ & Ho & _).
    rewrite Hv, Hdoc, (isStructuredDocumentation_node o Ho), Hl.
    simpl. now rewrite removeFirst_middle.
  - now rewrite Hv, Hold.
Qed.

Lemma assign_docString (v : Documentation) (c : ContractDefinition) :
  docString (assignDocumentation v c)
  = match isStructuredDocumentation v with
    | Some _ => None
    | None => asDocString v
    end.
Proof.
  destruct (assignment_row v c)
    as [D -> HD Hold -> | D -> Hdoc -> | D o l1 l2 -> HD Hdoc _ Hl Hl1 ->
        | o l1 l2 Hv Hdoc Hl Hl1 -> | Hv Hold ->].
  - now rewrite (isStructuredDocumentation_node D HD).
  - destruct (documentation_node c D Hdoc) as (Hs & _ & _ & _ & HD & _).
    now rewrite (isStructuredDocumentation_node D HD).
  - now rewrite (isStructuredDocumentation_node D HD).
  - now rewrite Hv.
  - now rewrite Hv.
Qed.

(** The fields an assignment never writes. *)
Lemma assign_fields (v : Documentation) (c : ContractDefinition) :
  let c' := assignDocumentation v c in
  self c' = self c /\ name c' = name c /\ nameLocation c' = nameLocation c /\
  scope c' = scope c /\ kind c' = kind c /\ abstract c' = abstract c /\
  fullyImplemented c' = fullyImplemented c /\
  linearizedBaseContracts c' = linearizedBaseContracts c /\
  usedErrors c' = usedErrors c /\ requiredContext c' = requiredContext c.
Proof.
  cbv zeta.
  destruct (assignment_row v c)
    as [D _ _ _ -> | D _ _ -> | D o l1 l2 _ _ _ _ _ _ -> | o l1 l2 _ _ _ _ -> | _ _ ->];
    repeat split.
Qed.

End Assignment.

(** ** The constructor *)

Section Constructor.

Local Abbreviation isSD := (instanceof StructuredDocumentation).

Lemma appendChildren_state (l : list ASTNode) (c : ContractDefinition) :
  appendChildren l c
  = (Ok tt, with_children (ownChildren c ++ l)
              (fold_left (fun p n => <[n := self c]> p) l (parent c)) c).
Proof.
  revert c; induction l as [|n l IH]; intros c.
  - simpl. rewrite app_nil_r. now destruct c.
  - simpl. unfold mbind, M_bind, appendChild. rewrite IH. simpl.
    now rewrite <- app_assoc.
Qed.

Lemma new_ContractDefinition_state (node : ASTNode) (nm : string) (sc : Z)
    (k : ContractKind) (ab fi : bool) (lin used : list Z) (doc : Documentation)
    (children : list ASTNode) (nl : option string)
    (parents : gmap ASTNode ASTNode) (ctx : ASTContext) :
  new_ContractDefinition node nm sc k ab fi lin used doc children nl parents ctx
  = (Ok tt,
     with_nameLocation nl
       (assignDocumentation doc
          (mkContract node None nm None sc k ab fi lin used children
             (fold_left (fun p n => <[n := node]> p) children parents) ctx))).
Proof.
  unfold new_ContractDefinition, mbind, M_bind.
  rewrite appendChildren_state. unfold with_children. simpl.
  unfold assignDocumentation.
  match goal with
  | |- context [set_documentation doc ?c0] =>
      pose proof (set_documentation_returns c0 doc) as Hret;
      destruct (set_documentation doc c0) as [r c1]
  end.
  simpl in Hret. subst r. reflexivity.
Qed.

Lemma first_documentation_child (c : ContractDefinition) :
  docString c = None ->
  (existsb isSD (ownChildren c) = true
   /\ exists o, isStructuredDocumentation (documentation c) = Some o)
  \/ (existsb isSD (ownChildren c) = false
      /\ noStructuredDocumentation (ownChildren c)
      /\ documentation c = DocUndefined).
Proof.
  intros Hs. unfold documentation. rewrite Hs.
  destruct (List.find isSD (ownChildren c)) as [o|] eqn:Hf.
  - left. destruct (find_split _ _ _ Hf) as (l1 & l2 & -> & Ho & _).
    split; [now apply existsb_middle |]. exists o. simpl. now rewrite Ho.
  - right. apply find_none in Hf.
    split; [now apply existsb_none | split; [exact Hf | reflexivity]].
Qed.

Lemma assign_children_fresh (v : Documentation) (c : ContractDefinition) :
  docString c = None ->
  ownChildren (assignDocumentation v c) = constructedChildren v (ownChildren c).
Proof.
  intros Hs. rewrite assign_children. unfold constructedChildren.
  destruct (first_documentation_child c Hs) as [[Hex [o Ho]] | (Hex & Hno & Hdoc)].
  - rewrite Hex, Ho. reflexivity.
  - rewrite Hex, Hdoc. simpl.
    destruct (isStructuredDocumentation v); [reflexivity |].
    now rewrite removeFirst_none.
Qed.

Lemma assign_getter_undefined (c : ContractDefinition) :
  docConsistent c -> documentation (assignDocumentation DocUndefined c) = DocUndefined.
Proof.
  intros Hinv.
  destruct (assign_text_children c DocUndefined eq_refl Hinv) as [Hs Hno].
  unfold documentation. rewrite Hs. simpl.
  apply find_none in Hno. now rewrite Hno.
Qed.

Lemma assign_getter (v : Documentation) (c : ContractDefinition) :
  wellTyped v -> (v = DocUndefined -> docConsistent c) ->
  documentation (assignDocumentation v c) = v.
Proof.
  intros Hty Hinv. destruct v as [|s|D].
  - now apply assign_getter_undefined, Hinv.
  - apply assign_getter_string.
  - apply assign_getter_node. now apply bool_decide_eq_true.
Qed.

End Constructor.

(** X1: the constructor never throws; it keeps the fields it is given, and
    the children it is given in their order, except for the documentation:
    a [StructuredDocumentation] argument takes the place of the first such
    node among the children, or goes in front when there is none, and with
    a string or no documentation the first such node among the children is
    dropped. *)
Theorem constructor_children (node : ASTNode) (nm : string) (sc : Z)
    (k : ContractKind) (ab fi : bool) (lin used : list Z) (doc : Documentation)
    (children : list ASTNode) (nl : option string)
    (parents : gmap ASTNode ASTNode) (ctx : ASTContext) :
  let r := new_ContractDefinition node nm sc k ab fi lin used doc children nl
             parents ctx in
  fst r = Ok tt /\
  ownChildren (snd r) = constructedChildren doc children /\
  docString (snd r) = asDocString doc /\
  self (snd r) = node /\ name (snd r) = nm /\ scope (snd r) = sc /\
  kind (snd r) = k /\ abstract (snd r) = ab /\ fullyImplemented (snd r) = fi /\
  linearizedBaseContracts (snd r) = lin /\ usedErrors (snd r) = used /\
  nameLocation (snd r) = nl /\ requiredContext (snd r) = ctx.
Proof.
  cbv zeta. rewrite new_ContractDefinition_state. simpl.
  match goal with
  | |- context [assignDocumentation doc ?c0] => set (c := c0)
  end.
  pose proof (assign_fields doc c) as Hf. cbv zeta in Hf.
  destruct Hf as (Hself & Hname & _ & Hscope & Hkind & Hab & Hfi & Hlin & Hused & Hctx).
  split; [reflexivity |].
  split; [exact (assign_children_fresh doc c eq_refl) |].
  split.
  { rewrite assign_docString. destruct doc as [| |D]; try reflexivity.
    simpl. now destruct (instanceof StructuredDocumentation D). }
  repeat split; assumption.
Qed.

(** X2: a contract built from children with at most one
    [StructuredDocumentation] node among them has one representation of its
    documentation, whatever the documentation argument; and the getter of
    the new contract returns the documentation argument. *)
Theorem constructor_consistent (node : ASTNode) (nm : string) (sc : Z)
    (k : ContractKind) (ab fi : bool) (lin used : list Z) (doc : Documentation)
    (children : list ASTNode) (nl : option string)
    (parents : gmap ASTNode ASTNode) (ctx : ASTContext) :
  (length (List.filter (instanceof StructuredDocumentation) children) <= 1)%nat ->
  let c := snd (new_ContractDefinition node nm sc k ab fi lin used doc children nl
                  parents ctx) in
  docConsistent c /\ (wellTyped doc -> documentation c = doc).
Proof.
  intros Hcount. cbv zeta. rewrite new_ContractDefinition_state. simpl.
  match goal with
  | |- context [assignDocumentation doc ?c0] => set (c := c0)
  end.
  assert (Hc : docConsistent c) by exact Hcount.
  split.
  - exact (docConsistent_assign c doc Hc).
  - intros Hty. exact (assign_getter doc c Hty (fun _ => Hc)).
Qed.

Lemma constructor_consistent_witness :
  let c := exampleContract Contract DocUndefined
             [exampleFunction 2 "aabbccdd"; exampleDoc 5] in
  docConsistent c /\ documentation c = DocUndefined.
Proof.
  intros c.
  pose proof (constructor_consistent (exampleNode ContractDefinitionClass 1) "C" 0
                Contract false true [1] [] DocUndefined
                [exampleFunction 2 "aabbccdd"; exampleDoc 5] None ∅ (mkContext ∅)) as H.
  cbv zeta in H. destruct H as [Hc Hget]; [vm_compute; lia |].
  split; [exact Hc | exact (Hget I)].
Defined.

(** ** What an assignment to documentation leaves alone *)

Section Frame.

Local Abbreviation isSD := (instanceof StructuredDocumentation).

Lemma assign_filter (p : ASTNode -> bool) (v : Documentation) (c : ContractDefinition) :
  (forall n, isSD n = true -> p n = false) ->
  List.filter p (ownChildren (assignDocumentation v c)) = List.filter p (ownChildren c).
Proof.
  intros Hp.
  destruct (assignment_row v c)
    as [D -> HD Hold -> | D -> Hdoc -> | D o l1 l2 -> HD Hdoc _ Hl Hl1 ->
        | o l1 l2 Hv Hdoc Hl Hl1 -> | Hv Hold ->]; simpl.
  - now rewrite (Hp D HD).
  - reflexivity.
  - destruct (documentation_node c o Hdoc) as (_ & _ & _ & _ & Ho & _).
    rewrite Hl, !List.filter_app. simpl. now rewrite (Hp D HD), (Hp o Ho).
  - destruct (documentation_node c o Hdoc) as (_ & _ & _ & _ & Ho & _).
    rewrite Hl, !List.filter_app. simpl. now rewrite (Hp o Ho).
  - reflexivity.
Qed.

Lemma find_filter (p q : ASTNode -> bool) (l : list ASTNode) :
  List.find q (List.filter p l) = List.find (fun n => p n && q n) l.
Proof.
  induction l as [|x l IH]; simpl; [reflexivity |].
  destruct (p x); simpl; [| exact IH].
  destruct (q x); [reflexivity | exact IH].
Qed.

End Frame.

(** X3: an assignment to [documentation], of any value, changes nothing
    but the documentation: the children that are no
    [StructuredDocumentation] nodes stay as they are and in their order, and
    so do the nine views, [vConstructor], [interfaceId], [vScope],
    [vLinearizedBaseContracts], [vUsedErrors] and [isSubclassOf]. *)
Theorem documentation_assignment_frame (v : Documentation) (c : ContractDefinition) :
  let c' := assignDocumentation v c in
  List.filter (fun n => negb (instanceof StructuredDocumentation n)) (ownChildren c')
  = List.filter (fun n => negb (instanceof StructuredDocumentation n)) (ownChildren c) /\
  (forall view : View, getView view c' = getView view c) /\
  vConstructor c' = vConstructor c /\
  interfaceId c' = interfaceId c /\
  vScope c' = vScope c /\
  vLinearizedBaseContracts c' = vLinearizedBaseContracts c /\
  vUsedErrors c' = vUsedErrors c /\
  (forall other, isSubclassOf c' other = isSubclassOf c other).
Proof.
  intros c'.
  assert (Hviews : forall view : View, getView view c' = getView view c).
  { intros view. rewrite !getView_filter. apply assign_filter.
    intros n Hn. now apply viewClass_not_documentation. }
  pose proof (assign_fields v c) as Hf. cbv zeta in Hf. fold c' in Hf.
  destruct Hf as (_ & _ & _ & Hscope & Hkind & _ & _ & Hlin & Hused & Hctx).
  pose proof (Hviews Functions) as Hfun. simpl in Hfun.
  assert (Hbases : vLinearizedBaseContracts c' = vLinearizedBaseContracts c).
  { unfold vLinearizedBaseContracts. now rewrite Hlin, Hctx. }
  split; [| split; [exact Hviews | split; [| split; [| split; [| split; [| split]]]]]].
  - apply assign_filter. intros n ->. reflexivity.
  - unfold vConstructor. now rewrite Hfun.
  - unfold interfaceId. now rewrite Hkind, Hfun.
  - unfold vScope. now rewrite Hscope, Hctx.
  - exact Hbases.
  - unfold vUsedErrors. now rewrite Hused, Hctx.
  - intros other. unfold isSubclassOf. now rewrite Hbases.
Qed.

(** X4: assigning the same value to [documentation] a second time changes
    nothing, for a string and for a [StructuredDocumentation] node always,
    and for [undefined] when the two representations were consistent before
    the first assignment. *)
Theorem documentation_assignment_idempotent (v : Documentation) (c : ContractDefinition) :
  wellTyped v -> (v = DocUndefined -> docConsistent c) ->
  set_documentation v (assignDocumentation v c) = (Ok tt, assignDocumentation v c).
Proof.
  intros Hty Hinv.
  pose proof (assign_getter v c Hty Hinv) as Hget.
  pose proof (assign_docString v c) as Hs.
  destruct v as [|s|D].
  - rewrite set_documentation_store; [| reflexivity | now rewrite Hget].
    simpl in Hs |- *. rewrite <- Hs. now rewrite with_docString_same.
  - rewrite set_documentation_store; [| reflexivity | now rewrite Hget].
    simpl in Hs |- *. rewrite <- Hs. now rewrite with_docString_same.
  - now apply set_documentation_same.
Qed.

Lemma documentation_assignment_idempotent_witness :
  let c := exampleContract Contract (DocString "a") [exampleFunction 2 "aabbccdd"] in
  set_documentation (DocNode (exampleDoc 5)) (assignDocumentation (DocNode (exampleDoc 5)) c)
  = (Ok tt, assignDocumentation (DocNode (exampleDoc 5)) c).
Proof.
  intros c. apply documentation_assignment_idempotent.
  - reflexivity.
  - discriminate.
Defined.

(** X5: [vConstructor] is the first child that is a [FunctionDefinition]
    flagged as constructor: every function before it among the children is
    no constructor, and it is absent exactly when no function child is
    flagged. *)
Theorem vConstructor_first (c : ContractDefinition) :
  vConstructor c
  = List.find (fun n => instanceof FunctionDefinition n && isConstructor n)
      (ownChildren c) /\
  (forall f, vConstructor c = Some f ->
   class f = FunctionDefinition /\ isConstructor f = true /\ f ∈ vFunctions c /\
   exists l1 l2 : list ASTNode,
     ownChildren c = l1 ++ f :: l2 /\
     Forall (fun n => class n = FunctionDefinition -> isConstructor n = false) l1) /\
  (vConstructor c = None <->
   forall n, n ∈ ownChildren c -> class n = FunctionDefinition -> isConstructor n = false).
Proof.
  assert (Heq : vConstructor c
                = List.find (fun n => instanceof FunctionDefinition n && isConstructor n)
                    (ownChildren c)).
  { unfold vConstructor, vFunctions. apply find_filter. }
  split; [exact Heq | split].
  - intros f Hf.
    assert (Hin : f ∈ vFunctions c).
    { unfold vConstructor in Hf. apply find_some in Hf as [Hin _].
      now apply list_elem_of_In. }
    rewrite Heq in Hf.
    destruct (find_split _ _ _ Hf) as (l1 & l2 & Hl & Hp & Hl1).
    apply andb_true_iff in Hp as [Hk Hc].
    apply bool_decide_eq_true in Hk.
    repeat split; try assumption.
    exists l1, l2. split; [exact Hl |].
    eapply List.Forall_impl; [| exact Hl1].
    intros n Hn Hclass. simpl in Hn.
    unfold instanceof in Hn. rewrite bool_decide_eq_true_2 in Hn by exact Hclass.
    exact Hn.
  - rewrite Heq, find_none, List.Forall_forall. split.
    + intros H n Hin Hclass. apply list_elem_of_In in Hin.
      specialize (H n Hin). simpl in H.
      unfold instanceof in H. now rewrite bool_decide_eq_true_2 in H by exact Hclass.
    + intros H n Hin. apply list_elem_of_In in Hin.
      unfold instanceof. destruct (decide (class n = FunctionDefinition)) as [Hk | Hk].
      * rewrite bool_decide_eq_true_2 by exact Hk. simpl. now apply H.
      * now rewrite bool_decide_eq_false_2 by exact Hk.
Qed.

Lemma vConstructor_first_witness :
  let ctor := mkNode 3 FunctionDefinition 3 "FunctionDefinition" "" true in
  let c := exampleContract Contract DocUndefined
             [exampleNode EventDefinition 4; exampleFunction 2 "aabbccdd"; ctor] in
  vConstructor c = Some ctor /\ class ctor = FunctionDefinition.
Proof.
  intros ctor c.
  assert (H : vConstructor c = Some ctor) by reflexivity.
  split; [exact H |].
  exact (proj1 (proj1 (proj2 (vConstructor_first c)) ctor H)).
Defined.

(** ** interfaceId: errors, value and composition *)

Section InterfaceIdValue.



Lemma mapR_first_throw {A B : Type} (f : A -> Result B) (l1 l2 : list A) (x : A)
    (e : Error) :
  Forall (fun y => exists b, f y = Ok b) l1 -> f x = Throw e ->
  mapR f (l1 ++ x :: l2) = Throw e.
Proof.
  intros Hl1 Hx. induction Hl1 as [|y l1 [b Hy] _ IH]; simpl.
  - now rewrite Hx.
  - now rewrite Hy, IH.
Qed.


Lemma parseHexDigits_nonneg (s : string) (acc v : Z) :
  parseHexDigits acc s = Some v -> 0 <= acc -> 0 <= v.
Proof.
  revert acc; induction s as [|a s IH]; intros acc; simpl.
  - intros [= <-]. trivial.
  - destruct (hexDigitValue a) as [d|] eqn:Hd; [| discriminate].
    apply hexDigitValue_range in Hd. intros Hv Hacc. apply (IH _ Hv). lia.
Qed.

Lemma hashValue_nonneg (h : string) : 0 <= hashValue h.
Proof.
  unfold hashValue, BigInt_0x. destruct (trimEnd h) as [|a t]; [lia |].
  destruct (parseHexDigits 0 (String a t)) as [v|] eqn:Hv; [| lia].
  now apply parseHexDigits_nonneg in Hv.
Qed.

Lemma fold_lxor_nonneg (l : list Z) (a : Z) :
  0 <= a -> Forall (fun x => 0 <= x) l -> 0 <= fold_left Z.lxor l a.
Proof.
  intros Ha Hl; revert a Ha.
  induction Hl as [|x l Hx _ IH]; intros a Ha; simpl; [exact Ha |].
  apply IH. apply Z.lxor_nonneg. tauto.
Qed.

Lemma xorFold_nonneg (l : list Z) : Forall (fun x => 0 <= x) l -> 0 <= xorFold l.
Proof. apply fold_lxor_nonneg. lia. Qed.

Lemma xorFold_snoc (l : list Z) (h : Z) : xorFold (l ++ [h]) = Z.lxor (xorFold l) h.
Proof. unfold xorFold. now rewrite fold_left_app. Qed.

Lemma toHexDigits_lower (fuel : nat) (n : Z) :
  0 <= n -> string_forallb isLowerHexDigit (toHexDigits fuel n) = true.
Proof.
  revert n; induction fuel as [|fuel IH]; intros n Hn; [reflexivity |].
  simpl toHexDigits. destruct (Z.ltb_spec n 16) as [Hlt|Hge].
  - simpl. now rewrite hexDigit_lower by lia.
  - rewrite string_forallb_app, IH by (apply Z.div_pos; lia). simpl.
    rewrite hexDigit_lower; [reflexivity | apply Z.mod_pos_bound; lia].
Qed.

(** [toString(16)] writes no leading zero: a number of at least [16 ^ k]
    takes more than [k] digits. *)
Lemma toHexDigits_long (k fuel : nat) (n : Z) :
  16 ^ Z.of_nat k <= n -> n < 16 ^ Z.of_nat fuel ->
  (k < String.length (toHexDigits fuel n))%nat.
Proof.
  revert fuel n; induction k as [|k IH]; intros fuel n Hk Hfuel.
  - destruct fuel as [|fuel]; [simpl in *; lia |].
    simpl toHexDigits. destruct (n <? 16); [simpl; lia |].
    rewrite string_length_app. simpl. lia.
  - rewrite Nat2Z.inj_succ, Z.pow_succ_r in Hk by lia.
    assert (Hp : 0 < 16 ^ Z.of_nat k) by (apply Z.pow_pos_nonneg; lia).
    destruct fuel as [|fuel]; [simpl in *; lia |].
    rewrite Nat2Z.inj_succ, Z.pow_succ_r in Hfuel by lia.
    simpl toHexDigits. destruct (Z.ltb_spec n 16) as [Hlt|Hge]; [lia |].
    rewrite string_length_app. simpl.
    assert (k < String.length (toHexDigits fuel (n / 16)))%nat; [| lia].
    apply IH.
    + apply Z.div_le_lower_bound; lia.
    + apply Z.div_lt_upper_bound; lia.
Qed.

Lemma parseHexDigits_zeros (k : nat) : parseHexDigits 0 (repeatChar k "0"%char) = Some 0.
Proof. induction k as [|k IH]; [reflexivity | exact IH]. Qed.

Lemma padStart_value (k : nat) (s : string) :
  parseHexDigits 0 (padStart k "0"%char s) = parseHexDigits 0 s.
Proof. unfold padStart. now rewrite parseHexDigits_app, parseHexDigits_zeros. Qed.

Lemma padStart_lower (k : nat) (s : string) :
  string_forallb isLowerHexDigit s = true ->
  string_forallb isLowerHexDigit (padStart k "0"%char s) = true.
Proof.
  intros Hs. unfold padStart. rewrite string_forallb_app, Hs, andb_true_r.
  induction (k - String.length s)%nat as [|m IH]; [reflexivity | exact IH].
Qed.

Lemma padStart_length (k : nat) (c : ascii) (s : string) :
  String.length (padStart k c s) = Nat.max k (String.length s).
Proof.
  unfold padStart. rewrite string_length_app, string_length_repeatChar. lia.
Qed.

(** The string of an interface id, for a non-negative number. *)
Lemma rendered_id (x : Z) :
  0 <= x ->
  let s := padStart 8 "0"%char (BigInt_toString16 x) in
  parseHexDigits 0 s = Some x /\
  (8 <= String.length s)%nat /\
  string_forallb isLowerHexDigit s = true /\
  (String.length s = 8%nat <-> x < 2 ^ 32).
Proof.
  intros Hx s. unfold s.
  split; [rewrite padStart_value; now apply BigInt_toString16_value |].
  split; [rewrite padStart_length; lia |].
  split.
  { apply padStart_lower. unfold BigInt_toString16.
    destruct (Z.ltb_spec x 0); [lia | now apply toHexDigits_lower]. }
  split.
  - intros Hlen. destruct (Z.lt_ge_cases x (2 ^ 32)) as [Hlt | Hge]; [exact Hlt |].
    exfalso. rewrite padStart_length in Hlen.
    unfold BigInt_toString16 in Hlen. destruct (Z.ltb_spec x 0); [lia |].
    pose proof (toHexDigits_long 8 (S (Z.to_nat (Z.log2 x))) x) as Hlong.
    change (16 ^ Z.of_nat 8) with (2 ^ 32) in Hlong.
    specialize (Hlong Hge (toString16_fuel x Hx)). lia.
  - intros Hlt. rewrite toString16_padStart by lia. apply fixedHex_length.
Qed.

Lemma interfaceId_accepted (c : ContractDefinition) :
  kind c = Interface -> hashesAccepted (vFunctions c) ->
  let x := xorFold (List.map (fun fn => hashValue (canonicalSignatureHash fn))
                      (vFunctions c)) in
  interfaceId c = Ok (Some (padStart 8 "0"%char (BigInt_toString16 x))).
Proof.
  intros Hk Hall x. unfold x.
  destruct (vFunctions c) as [|f l] eqn:Hfun.
  - now apply interfaceId_no_functions.
  - rewrite <- Hfun in *. apply interfaceId_fold; [exact Hk | | exact Hall].
    rewrite Hfun. discriminate.
Qed.

Lemma interfaceIdValue_fold (c : ContractDefinition) :
  kind c = Interface -> hashesAccepted (vFunctions c) ->
  interfaceIdValue c
  = Some (xorFold (List.map (fun fn => hashValue (canonicalSignatureHash fn))
                     (vFunctions c))).
Proof.
  intros Hk Hall. unfold interfaceIdValue.
  rewrite (interfaceId_accepted c Hk Hall).
  apply rendered_id. apply xorFold_nonneg, List.Forall_map, List.Forall_forall.
  intros fn _. apply hashValue_nonneg.
Qed.

Lemma vFunctions_appendChild (c : ContractDefinition) (f : ASTNode) :
  class f = FunctionDefinition ->
  vFunctions (snd (appendChild f c)) = vFunctions c ++ [f].
Proof.
  intros Hf. unfold vFunctions. simpl. rewrite List.filter_app. simpl.
  unfold instanceof at 2. now rewrite bool_decide_eq_true_2.
Qed.

End InterfaceIdValue.



(** X7: on an interface whose function hashes [BigInt] accepts, whatever
    their width, [interfaceId] is a string of lowercase hexadecimal digits
    that spells the XOR of the hashes; it has at least eight characters, and
    exactly eight when and only when the XOR is below [2 ^ 32]. *)
Theorem interfaceId_value (c : ContractDefinition) :
  kind c = Interface -> hashesAccepted (vFunctions c) ->
  let x := xorFold (List.map (fun fn => hashValue (canonicalSignatureHash fn))
                      (vFunctions c)) in
  exists s, interfaceId c = Ok (Some s) /\
            parseHexDigits 0 s = Some x /\
            (8 <= String.length s)%nat /\
            string_forallb isLowerHexDigit s = true /\
            (String.length s = 8%nat <-> x < 2 ^ 32).
Proof.
  intros Hk Hall x. eexists. split; [exact (interfaceId_accepted c Hk Hall) |].
  apply rendered_id. apply xorFold_nonneg, List.Forall_map, List.Forall_forall.
  intros fn _. apply hashValue_nonneg.
Qed.

Lemma interfaceId_value_witness :
  let c := exampleContract Interface DocUndefined
             [exampleFunction 2 "aabbccdd"; exampleFunction 3 "1122334455"] in
  exists s, interfaceId c = Ok (Some s) /\ parseHexDigits 0 s = Some 75305093256
            /\ String.length s ≠ 8%nat.
Proof.
  intros c.
  destruct (interfaceId_value c) as (s & Hs & Hv & _ & _ & Hlen).
  - reflexivity.
  - repeat constructor; eexists; reflexivity.
  - exists s. split; [exact Hs | split; [rewrite Hv; reflexivity |]].
    intros H8. apply Hlen in H8. vm_compute in H8. discriminate.
Defined.

(** X8: on an interface, appending a function whose hash [BigInt] accepts
    XORs that hash into the number [interfaceId] spells; so appending two
    functions with the same hash leaves the interface id as it was. *)
Theorem interfaceId_append (c : ContractDefinition) (f : ASTNode) :
  kind c = Interface -> hashesAccepted (vFunctions c) ->
  class f = FunctionDefinition ->
  (exists v, BigInt_0x (canonicalSignatureHash f) = Ok v) ->
  exists x, interfaceIdValue c = Some x /\
    interfaceIdValue (snd (appendChild f c))
    = Some (Z.lxor x (hashValue (canonicalSignatureHash f))) /\
    forall g, class g = FunctionDefinition ->
      canonicalSignatureHash g = canonicalSignatureHash f ->
      interfaceIdValue (snd (appendChild g (snd (appendChild f c)))) = Some x
      /\ interfaceId (snd (appendChild g (snd (appendChild f c)))) = interfaceId c.
Proof.
  intros Hk Hall Hf Hacc.
  set (c1 := snd (appendChild f c)).
  assert (Hk1 : kind c1 = Interface) by exact Hk.
  assert (Hfun1 : vFunctions c1 = vFunctions c ++ [f]) by now apply vFunctions_appendChild.
  assert (Hall1 : hashesAccepted (vFunctions c1)).
  { rewrite Hfun1. apply Forall_app. split; [exact Hall | now constructor]. }
  eexists. split; [exact (interfaceIdValue_fold c Hk Hall) |].
  split.
  - rewrite (interfaceIdValue_fold c1 Hk1 Hall1), Hfun1, List.map_app. simpl.
    now rewrite xorFold_snoc.
  - intros g Hg Hhash.
    set (c2 := snd (appendChild g c1)).
    assert (Hk2 : kind c2 = Interface) by exact Hk.
    assert (Hfun2 : vFunctions c2 = (vFunctions c ++ [f]) ++ [g]).
    { unfold c2. rewrite vFunctions_appendChild by exact Hg. now rewrite Hfun1. }
    assert (Hall2 : hashesAccepted (vFunctions c2)).
    { rewrite Hfun2. apply Forall_app. split; [now rewrite <- Hfun1 |].
      constructor; [now rewrite Hhash | constructor]. }
    assert (Hx : xorFold (List.map (fun fn => hashValue (canonicalSignatureHash fn))
                            (vFunctions c2))
                 = xorFold (List.map (fun fn => hashValue (canonicalSignatureHash fn))
                              (vFunctions c))).
    { rewrite Hfun2, !List.map_app. simpl. rewrite !xorFold_snoc, Hhash.
      now rewrite Z.lxor_assoc, Z.lxor_nilpotent, Z.lxor_0_r. }
    split.
    + now rewrite (interfaceIdValue_fold c2 Hk2 Hall2), Hx.
    + rewrite (interfaceId_accepted c2 Hk2 Hall2), (interfaceId_accepted c Hk Hall).
      cbv zeta. now rewrite Hx.
Qed.

Lemma interfaceId_append_witness :
  let c := exampleContract Interface DocUndefined [exampleFunction 2 "aabbccdd"] in
  let f := exampleFunction 3 "11223344" in
  interfaceIdValue (snd (appendChild f c)) = Some (Z.lxor 2864434397 287454020).
Proof.
  intros c f.
  destruct (interfaceId_append c f) as (x & Hx & Hxf & _).
  - reflexivity.
  - repeat constructor; eexists; reflexivity.
  - reflexivity.
  - eexists; reflexivity.
  - rewrite Hxf. vm_compute in Hx. injection Hx as <-. reflexivity.
Defined.

(** ** Base contracts, used errors and the scope *)

Section Located.

Context (ctx : ASTContext).

Lemma mapR_locate_ids (ids : list Z) (bases : list ASTNode) :
  wf_context ctx ->
  Forall2 (fun i node => registered ctx !! i = Some node) ids bases ->
  List.map id bases = ids.
Proof.
  intros Hwf. induction 1 as [|i node ids bases Hi _ IH]; [reflexivity |].
  simpl. now rewrite IH, (Hwf _ _ Hi).
Qed.

Lemma mapR_locate_unresolved (l1 l2 : list Z) (i : Z) :
  Forall (fun j => is_Some (registered ctx !! j)) l1 ->
  registered ctx !! i = None ->
  mapR (fun j => locate ctx j) (l1 ++ i :: l2) = Throw (UnresolvedReference i).
Proof.
  intros Hl1 Hi. apply mapR_first_throw.
  - eapply List.Forall_impl; [| exact Hl1].
    intros j [node Hj]. exists node. unfold locate. now rewrite Hj.
  - unfold locate. now rewrite Hi.
Qed.

Lemma located_elem_of_some (ids : list Z) (bases : list ASTNode) (other : ASTNode) :
  Forall2 (fun i node => registered ctx !! i = Some node) ids bases ->
  other ∈ bases <-> exists i, i ∈ ids /\ registered ctx !! i = Some other.
Proof.
  induction 1 as [|i node ids bases Hi _ IH].
  - split; [intros H; inversion H | intros (i & H & _); inversion H].
  - rewrite elem_of_cons, IH. split.
    + intros [-> | (j & Hj & Hother)].
      * exists i. split; [left | exact Hi].
      * exists j. split; [now right | exact Hother].
    + intros (j & Hj & Hother). apply elem_of_cons in Hj as [-> | Hj].
      * left. congruence.
      * right. eauto.
Qed.

End Located.

(** X9: when every id of [linearizedBaseContracts] is registered,
    [vLinearizedBaseContracts] returns as many nodes, the node registered
    under each id in order, and their ids spell the list again when the
    registry keeps each node under its own id.  When some id is not
    registered, the getter throws the unresolved reference of the first
    such id.  [vUsedErrors] does the same with [usedErrors]. *)
Theorem located_views (c : ContractDefinition) :
  let ctx := requiredContext c in
  let resolved := fun ids : list Z => Forall (fun i => is_Some (registered ctx !! i)) ids in
  let located := fun (ids : list Z) (r : Result (list ASTNode)) =>
    (resolved ids ->
     exists bases, r = Ok bases /\ length bases = length ids /\
       Forall2 (fun i node => registered ctx !! i = Some node) ids bases /\
       (wf_context ctx -> List.map id bases = ids)) /\
    (forall (l1 l2 : list Z) (i : Z),
       ids = l1 ++ i :: l2 -> resolved l1 -> registered ctx !! i = None ->
       r = Throw (UnresolvedReference i)) in
  located (linearizedBaseContracts c) (vLinearizedBaseContracts c) /\
  located (usedErrors c) (vUsedErrors c).
Proof.
  intros ctx resolved located.
  assert (H : forall ids, located ids (mapR (fun i => locate ctx i) ids)).
  { intros ids. split.
    - intros Hres. destruct (mapR_locate ctx ids Hres) as (bases & Hmap & Hall).
      exists bases. split; [exact Hmap |].
      split; [symmetry; exact (Forall2_length _ _ _ Hall) |].
      split; [exact Hall |]. intros Hwf. now apply (mapR_locate_ids ctx).
    - intros l1 l2 i -> Hl1 Hi. now apply mapR_locate_unresolved. }
  split; apply H.
Qed.

Lemma located_views_witness :
  let base := mkNode 4 ContractDefinitionClass 2 "ContractDefinition" "" false in
  let me := exampleNode ContractDefinitionClass 1 in
  let c := mkContract me None "C" None 0 Contract false true [1; 2] [7] [] ∅
             (mkContext (<[1 := me]> (<[2 := base]> ∅))) in
  vLinearizedBaseContracts c = Ok [me; base] /\
  vUsedErrors c = Throw (UnresolvedReference 7).
Proof.
  intros base me c.
  pose proof (located_views c) as H. cbv zeta in H. destruct H as [[Hlin _] [_ Hused]].
  split.
  - destruct Hlin as (bases & Hr & _ & Hall & _).
    + repeat constructor; vm_compute; eauto.
    + rewrite Hr. f_equal.
      inversion Hall as [|? ? ? ? H1 Hall']; subst.
      inversion Hall' as [|? ? ? ? H2 Hall'']; subst.
      inversion Hall''; subst.
      vm_compute in H1, H2. now injection H1 as <-; injection H2 as <-.
  - apply (Hused [] [] 7); [reflexivity | constructor | reflexivity].
Defined.

(** X10: [vScope] reads back what was assigned: after a node that the
    registry holds under its id is assigned, the getter returns that node
    and assigning it again changes nothing; an assignment that throws
    leaves the getter as it was; and of two assignments in a row the second
    decides the state when it succeeds. *)
Theorem vScope_round_trip (c : ContractDefinition) (value : ASTNode) :
  (registered (requiredContext c) !! id value = Some value ->
   let c' := snd (set_vScope value c) in
   fst (set_vScope value c) = Ok tt /\ vScope c' = Ok value /\
   set_vScope value c' = (Ok tt, c')) /\
  (contains (requiredContext c) value = false ->
   vScope (snd (set_vScope value c)) = vScope c) /\
  (forall first : ASTNode,
     contains (requiredContext c) value = true ->
     set_vScope value (snd (set_vScope first c)) = set_vScope value c).
Proof.
  split; [| split].
  - intros Hreg.
    assert (Hc : contains (requiredContext c) value = true).
    { unfold contains. apply bool_decide_eq_true. eauto. }
    unfold set_vScope. rewrite Hc. simpl. rewrite Hc. simpl.
    repeat split. unfold vScope, locate. simpl. now rewrite Hreg.
  - intros Hc. unfold set_vScope. now rewrite Hc.
  - intros first Hc. unfold set_vScope at 2.
    destruct (contains (requiredContext c) first); simpl;
      unfold set_vScope; simpl; now rewrite Hc.
Qed.

Lemma vScope_round_trip_witness :
  let unit := mkNode 9 SourceUnit 7 "SourceUnit" "" false in
  let c := mkContract (exampleNode ContractDefinitionClass 1) None "C" None 0
             Contract false true [1] [] [] ∅ (mkContext (<[7 := unit]> ∅)) in
  vScope (snd (set_vScope unit c)) = Ok unit /\
  vScope (snd (set_vScope (exampleNode SourceUnit 8) c)) = vScope c.
Proof.
  intros unit c.
  destruct (vScope_round_trip c unit) as (Hset & _ & _).
  destruct (vScope_round_trip c (exampleNode SourceUnit 8)) as (_ & Hfail & _).
  split.
  - apply Hset. reflexivity.
  - apply Hfail. reflexivity.
Defined.

(** X11: when every id of the linearization is registered,
    [isSubclassOf(other)] is true exactly when the registry holds [other]
    under one of those ids; so a node that the registry does not hold, as
    one of another program, is a base of no contract. *)
Theorem isSubclassOf_located (c : ContractDefinition) (other : ASTNode) :
  let ctx := requiredContext c in
  Forall (fun i => is_Some (registered ctx !! i)) (linearizedBaseContracts c) ->
  (isSubclassOf c other = Ok true <->
   exists i, i ∈ linearizedBaseContracts c /\ registered ctx !! i = Some other) /\
  ((forall i, registered ctx !! i ≠ Some other) -> isSubclassOf c other = Ok false).
Proof.
  intros ctx Hres.
  destruct (mapR_locate ctx _ Hres) as (bases & Hmap & Hall).
  assert (Heq : isSubclassOf c other = Ok (bool_decide (other ∈ bases))).
  { unfold isSubclassOf, vLinearizedBaseContracts. fold ctx. now rewrite Hmap. }
  pose proof (located_elem_of_some ctx _ _ other Hall) as Hiff.
  rewrite Heq. split.
  - rewrite <- Hiff. split.
    + intros [= H]. now apply bool_decide_eq_true in H.
    + intros H. f_equal. now apply bool_decide_eq_true.
  - intros Hnone. f_equal. apply bool_decide_eq_false.
    intros Hin. apply Hiff in Hin as (i & _ & Hi). exact (Hnone i Hi).
Qed.

Lemma isSubclassOf_located_witness :
  let me := exampleNode ContractDefinitionClass 1 in
  let stranger := mkNode 8 ContractDefinitionClass 1 "ContractDefinition" "" false in
  let c := mkContract me None "C" None 0 Contract false true [1] [] [] ∅
             (mkContext (<[1 := me]> ∅)) in
  isSubclassOf c stranger = Ok false.
Proof.
  intros me stranger c.
  refine (proj2 (isSubclassOf_located c stranger _) _).
  - repeat constructor. vm_compute. eauto.
  - intros i Hi. simpl in Hi.
    apply lookup_insert_Some in Hi as [[_ Hi] | [_ Hi]]; [discriminate |].
    now rewrite lookup_empty in Hi.
Defined.

(** ** The views as a partition *)

Section Partition.

Lemma filter_cons_length (p : ASTNode -> bool) (x : ASTNode) (l : list ASTNode) :
  length (List.filter p (x :: l))
  = ((if p x then 1 else 0) + length (List.filter p l))%nat.
Proof. simpl. now destruct (p x). Qed.

Lemma view_counts (l : list ASTNode) :
  (list_sum (List.map (fun v => length (List.filter (instanceof (viewClass v)) l)) allViews)
   + length (List.filter
               (fun node => forallb (fun k => negb (instanceof k node))
                  [InheritanceSpecifier; VariableDeclaration; ModifierDefinition;
                   EventDefinition; ErrorDefinition; FunctionDefinition;
                   UsingForDirective; StructDefinition; EnumDefinition]) l)
   = length l)%nat.
Proof.
  induction l as [|x l IH]; [reflexivity |].
  unfold allViews in *. cbn [List.map list_sum viewClass] in *.
  rewrite !filter_cons_length.
  repeat match goal with
         | H : context [length (List.filter ?p l)] |- _ =>
             let n := fresh "n" in
             set (n := length (List.filter p l)) in *; clearbody n
         end.
  cbn [length]. simpl in IH. unfold instanceof. destruct (class x); simpl; lia.
Qed.

End Partition.

(** X12: the nine views sort the children by class: no child is in two
    views, no [StructuredDocumentation] child is in any, and the sizes of
    the views and of the rest add up to the number of children. *)
Theorem views_partition (c : ContractDefinition) :
  (forall (v1 v2 : View) (n : ASTNode),
     n ∈ getView v1 c -> n ∈ getView v2 c -> v1 = v2) /\
  (forall (v : View) (n : ASTNode),
     class n = StructuredDocumentation -> n ∉ getView v c) /\
  (list_sum (List.map (fun v => length (getView v c)) allViews)
   + length (unviewed c) = length (ownChildren c))%nat.
Proof.
  split; [| split].
  - intros v1 v2 n H1 H2.
    rewrite getView_subsequence in H1, H2.
    apply subsequenceOfKind_elem_of in H1 as [_ H1].
    apply subsequenceOfKind_elem_of in H2 as [_ H2].
    rewrite H1 in H2. destruct v1, v2; (reflexivity || discriminate).
  - intros v n Hn Hin. rewrite getView_subsequence in Hin.
    apply subsequenceOfKind_elem_of in Hin as [_ Hin].
    rewrite Hn in Hin. destruct v; discriminate.
  - rewrite <- (view_counts (ownChildren c)). unfold unviewed. f_equal.
Qed.

Lemma views_partition_witness :
  let f := exampleFunction 2 "aabbccdd" in
  let c := exampleContract Interface (DocNode (exampleDoc 5))
             [f; exampleNode EventDefinition 4] in
  f ∉ getView Events c.
Proof.
  intros f c Hin.
  assert (Hfun : f ∈ getView Functions c) by (apply list_elem_of_In; left; reflexivity).
  discriminate (proj1 (views_partition c) Events Functions f Hin Hfun).
Defined.

(** ** Parent links of the documentation *)

(** X13: an assignment to [documentation] moves the parent links with the
    children: a node that becomes the documentation gets the contract as
    parent; the node that was the documentation and is replaced or removed
    loses its parent, yet stays in the registry; the parent of every other
    node is left alone. *)
Theorem documentation_parent_links (v : Documentation) (c : ContractDefinition) :
  wellTyped v ->
  let c' := assignDocumentation v c in
  (forall D, v = DocNode D -> documentation c ≠ DocNode D ->
   parent c' !! D = Some (self c)) /\
  (forall o, documentation c = DocNode o -> v ≠ DocNode o ->
   parent c' !! o = None /\
   contains (requiredContext c') o = contains (requiredContext c) o) /\
  (forall n, v ≠ DocNode n -> documentation c ≠ DocNode n ->
   parent c' !! n = parent c !! n).
Proof.
  intros Hty c'. unfold c'.
  assert (Hnode : forall D, v = DocNode D -> isStructuredDocumentation v = None -> False).
  { intros D -> Hv. simpl in Hty. unfold isStructuredDocumentation, instanceof in Hv.
    rewrite bool_decide_eq_true_2 in Hv by exact Hty. discriminate. }
  assert (Hold' : forall o, documentation c = DocNode o ->
                            isStructuredDocumentation (documentation c) = None -> False).
  { intros o Hdoc Hold. rewrite Hdoc in Hold. simpl in Hold.
    destruct (documentation_node c o Hdoc) as (_ & _ & _ & _ & Ho & _).
    rewrite Ho in Hold. discriminate. }
  destruct (assignment_row v c)
    as [D -> HD Hold -> | D -> Hdoc -> | D o l1 l2 -> HD Hdoc Hne Hl Hl1 ->
        | o l1 l2 Hv Hdoc Hl Hl1 -> | Hv Hold ->]; simpl.
  - split; [| split].
    + intros D' [= <-] _. apply lookup_insert_eq.
    + intros o Hdoc _. destruct (Hold' o Hdoc Hold).
    + intros n Hn _. apply lookup_insert_ne. congruence.
  - split; [| split].
    + intros D' [= <-] Hn. contradiction.
    + intros o Ho Hn. congruence.
    + reflexivity.
  - split; [| split].
    + intros D' [= <-] _. apply lookup_insert_eq.
    + intros o' Ho' _. rewrite Hdoc in Ho'. injection Ho' as <-.
      split; [| reflexivity].
      rewrite lookup_insert_ne by exact Hne. apply lookup_delete_eq.
    + intros n Hn Hn'. rewrite lookup_insert_ne by congruence.
      apply lookup_delete_ne. congruence.
  - split; [| split].
    + intros D HvD _. destruct (Hnode D HvD Hv).
    + intros o' Ho' _. rewrite Hdoc in Ho'. injection Ho' as <-.
      split; [apply lookup_delete_eq | reflexivity].
    + intros n _ Hn. apply lookup_delete_ne. congruence.
  - split; [| split].
    + intros D HvD _. destruct (Hnode D HvD Hv).
    + intros o Hdoc _. destruct (Hold' o Hdoc Hold).
    + reflexivity.
Qed.

Lemma documentation_parent_links_witness :
  let c := exampleContract Contract (DocNode (exampleDoc 5)) [exampleFunction 2 "aabbccdd"] in
  let c' := assignDocumentation (DocNode (exampleDoc 6)) c in
  parent c' !! exampleDoc 6 = Some (self c) /\
  parent c' !! exampleDoc 5 = None /\
  parent c' !! exampleFunction 2 "aabbccdd" = parent c !! exampleFunction 2 "aabbccdd".
Proof.
  intros c c'.
  pose proof (documentation_parent_links (DocNode (exampleDoc 6)) c eq_refl) as H.
  cbv zeta in H. destruct H as (Hnew & Hold & Hother).
  split; [| split].
  - apply Hnew; [reflexivity | vm_compute; discriminate].
  - apply Hold; [reflexivity | discriminate].
  - apply Hother; [discriminate | vm_compute; discriminate].
Defined.

(** ** native.ts: the compiler process *)

Section CompileProperties.

Context {Buffer Json ParseError : Type}.
Variable Buffer_toString : Buffer -> string.
Variable JSON_parse : string -> Json + ParseError.

Lemma string_app_nil_r (s : string) : s +:+ "" = s.
Proof.
  induction s as [|a s IH]; [reflexivity |].
  rewrite string_app_cons. now rewrite IH.
Qed.

Lemma fold_onData (events : list (ChildEvent Buffer)) (st : Collected) :
  fold_left (onData Buffer Buffer_toString) events st
  = mkCollected (stdout st +:+ stdoutText Buffer Buffer_toString events)
      (stderr st +:+ stderrText Buffer Buffer_toString events).
Proof.
  revert st; induction events as [|[data|data] events IH]; intros st.
  - simpl. rewrite !string_app_nil_r. now destruct st.
  - simpl. rewrite IH. simpl. now rewrite string_app_assoc.
  - simpl. rewrite IH. simpl. now rewrite string_app_assoc.
Qed.

Lemma compile_collected (events : list (ChildEvent Buffer)) (code : option Z) :
  compile Buffer Buffer_toString Json ParseError JSON_parse events code
  = onClose Json ParseError JSON_parse code
      (mkCollected (stdoutText Buffer Buffer_toString events)
         (stderrText Buffer Buffer_toString events)).
Proof. unfold compile. now rewrite fold_onData. Qed.

End CompileProperties.

(** X14: how [NativeCompiler.compile] settles depends on the exit code and
    on the text of each output stream, its chunks in order of arrival, and
    not on how the chunks of the two streams interleave.  The promise
    resolves exactly when the exit code is 0, nothing came on stderr and
    the whole of stdout parses as JSON, and then with the parsed value; with
    another exit code, or none, it is rejected with that code and all of
    stderr, whatever stdout holds. *)
Theorem compile_settles {Buffer Json ParseError : Type}
    (Buffer_toString : Buffer -> string) (JSON_parse : string -> Json + ParseError)
    (events : list (ChildEvent Buffer)) (code : option Z) :
  let run := compile Buffer Buffer_toString Json ParseError JSON_parse in
  let out := stdoutText Buffer Buffer_toString in
  let err := stderrText Buffer Buffer_toString in
  (forall outJson, run events code = Resolved outJson <->
     code = Some 0 /\ err events = "" /\ JSON_parse (out events) = inl outJson) /\
  (code ≠ Some 0 -> run events code = RejectedExitCode code (err events)) /\
  (code = Some 0 -> err events ≠ "" -> run events code = RejectedStderr (err events)) /\
  (forall events', out events' = out events -> err events' = err events ->
     run events' code = run events code).
Proof.
  intros run out err. unfold run, out, err.
  split; [| split; [| split]].
  - intros outJson. rewrite compile_collected. unfold onClose. simpl.
    case_bool_decide as Hcode; [split; [discriminate | intros [? _]; contradiction] |].
    case_bool_decide as Herr; [split; [discriminate | intros (_ & ? & _); contradiction] |].
    try apply dec_stable in Hcode. try apply dec_stable in Herr.
    destruct (JSON_parse _) as [v|e]; split.
    + intros [= <-]. auto.
    + intros (_ & _ & [= <-]). reflexivity.
    + discriminate.
    + intros (_ & _ & [=]).
  - intros Hcode. rewrite compile_collected. unfold onClose. simpl.
    now rewrite bool_decide_eq_true_2.
  - intros Hcode Herr. rewrite compile_collected. unfold onClose. simpl.
    rewrite bool_decide_eq_false_2 by (intros Hn; now apply Hn).
    now rewrite bool_decide_eq_true_2.
  - intros events' Hout Herr. rewrite !compile_collected. now rewrite Hout, Herr.
Qed.

Lemma compile_settles_witness :
  let parse := fun s : string => if bool_decide (s = "{}") then inl 0 else inr tt in
  let run := compile string (fun s => s) Z unit parse in
  run [StdoutData "{"; StdoutData "}"] (Some 0) = Resolved 0 /\
  run [StdoutData "{}"; StderrData "warning"] (Some 1)
  = RejectedExitCode (Some 1) "warning" /\
  run [StderrData "warn"; StdoutData "{}"; StderrData "ing"] (Some 0)
  = run [StdoutData "{}"; StderrData "warn"; StderrData "ing"] (Some 0).
Proof.
  intros parse run. unfold run.
  pose proof (compile_settles (fun s => s) parse
                [StdoutData "{"; StdoutData "}"] (Some 0)) as H1.
  pose proof (compile_settles (fun s => s) parse
                [StdoutData "{}"; StderrData "warning"] (Some 1)) as H2.
  pose proof (compile_settles (fun s => s) parse
                [StdoutData "{}"; StderrData "warn"; StderrData "ing"] (Some 0)) as H3.
  cbv zeta in H1, H2, H3.
  destruct H1 as (Hres & _). destruct H2 as (_ & Hexit & _).
  destruct H3 as (_ & _ & _ & Hsame).
  split; [| split].
  - apply Hres. repeat split.
  - apply Hexit. discriminate.
  - apply Hsame; reflexivity.
Defined.

(** ** vConstructor and the tree *)

Section ConstructorView.

Lemma find_snoc (p : ASTNode -> bool) (l : list ASTNode) (x : ASTNode) :
  List.find p (l ++ [x])
  = match List.find p l with
    | Some y => Some y
    | None => if p x then Some x else None
    end.
Proof.
  induction l as [|y l IH]; simpl; [reflexivity |].
  destruct (p y); [reflexivity | exact IH].
Qed.

End ConstructorView.

(** X15: the first constructor wins: a node appended to the children
    becomes [vConstructor] only when there was none and the node is a
    function flagged as constructor, while such a node inserted in front
    always takes over. *)
Theorem vConstructor_insertion (c : ContractDefinition) (f : ASTNode) :
  let flagged := instanceof FunctionDefinition f && isConstructor f in
  vConstructor (snd (appendChild f c))
  = match vConstructor c with
    | Some g => Some g
    | None => if flagged then Some f else None
    end /\
  vConstructor (snd (insertAtBeginning f c))
  = if flagged then Some f else vConstructor c.
Proof.
  intros flagged. unfold vConstructor, vFunctions. rewrite !find_filter. simpl.
  split.
  - apply find_snoc.
  - reflexivity.
Qed.
